(** * Jacketed-reactor thermal network simulator

    A shallow embedding of [OBX heating/OBX heat up and down simulation V2.py]:
    the two heat-transfer functions, the process state machine and the
    fixed-timestep driver loop, together with the properties of the
    specification that concern them.

    Modelling conventions.
    - Python numbers are embedded twice.  The whole program is embedded
      over exact rationals ([Q]), where equality of computed numbers is
      [Qeq] ([==]) unless a value is passed through untouched; the
      general theorems are proved there.  A conclusion that rests on
      comparisons between computed values, on the selection of a minimum
      or on the direction in which a term of known sign moves a value
      carries over to finite doubles; an equality between separately
      computed numbers, a strict change by a small term or a bound that
      is reached exactly does not.  The two heat-transfer functions and
      the constants they read are therefore embedded a second time over
      IEEE 754 doubles (module [IEEE]), operation by operation, and the
      statements that hold over the rationals only are refuted there by
      evaluation.
    - Python exceptions are explicit: every function that can raise returns
      a [result].  Division raises [ZeroDivisionError] on a zero divisor and
      a missing dictionary key raises [KeyError].
    - The module-level globals of the script are gathered in one record,
      [Globals]; [V2.globals] holds the values the script assigns.
    - Dictionaries keyed by strings are [gmap string _]. *)

From Stdlib Require Import PrimFloat QArith Qminmax Lqa ZArith Lia Ascii String.
From stdpp Require Import gmap strings list.

Local Open Scope string_scope.
Local Open Scope Q_scope.

(* Decimal literals denote the nearest double, as in Python. *)
Set Warnings "-inexact-float".

(** ** Exceptions and the error monad *)

Inductive exn : Type :=
| KeyError (key : string)
| ZeroDivisionError
| TypeError
| ValueError
| IndexError.

Inductive result (A : Type) : Type :=
| Ok (a : A)
| Raise (e : exn).
Arguments Ok {A} a.
Arguments Raise {A} e.

#[global] Instance result_ret : MRet result := fun A a => Ok a.
#[global] Instance result_bind : MBind result :=
  fun A B f m => match m with Ok a => f a | Raise e => Raise e end.

(** ** Python primitives *)

(** Python floats, idealised. *)
Abbreviation float := Q (only parsing).

(** [x < y] on floats, as a boolean. *)
Definition Qltb (x y : Q) : bool :=
  match x ?= y with Lt => true | _ => false end.

(** [x / y]: raises on a zero divisor. *)
Definition py_div (x y : float) : result float :=
  if Qeq_bool y 0 then Raise ZeroDivisionError else Ok (x / y).

(** [max(a, b)] keeps the first argument unless the second is larger. *)
Definition py_max (a b : float) : float := if Qltb a b then b else a.

(** [min(a, b)] keeps the first argument unless the second is smaller. *)
Definition py_min (a b : float) : float := if Qltb b a then b else a.

(** [d[k]] *)
Definition getitem {V : Type} (d : gmap string V) (k : string) : result V :=
  match d !! k with
  | Some v => Ok v
  | None => Raise (KeyError k)
  end.

(** Length of [range(lo, hi, step)] for a non-zero step. *)
Definition range_length (lo hi step : Z) : nat :=
  if (0 <? step)%Z then
    if (lo <? hi)%Z then Z.to_nat (1 + (hi - 1 - lo) / step) else 0%nat
  else
    if (hi <? lo)%Z then Z.to_nat (1 + (lo - 1 - hi) / (- step)) else 0%nat.

(** [range(lo, hi, step)], as the list it iterates over. *)
Definition py_range (lo hi step : Z) : result (list Z) :=
  if (step =? 0)%Z then Raise ValueError
  else Ok (map (fun i : nat => (lo + Z.of_nat i * step)%Z)
               (seq 0 (range_length lo hi step))).

(** ** Module-level globals *)

(** The scalar entries of the [design] dictionary and its two nested
    dictionaries. *)
Record Design : Type := {
  heater_max_duty : float;
  cooler_max_duty : float;
  oil_flow_m3_per_h : float;
  water_flow_m3_per_h : float;
  cooling_water_temp : float;
  oil_max_temp : float;
  jacket_max_temp : float;
  reactor_max_temp : float;
  ambient_temp : float;
  reaction_time : Z;
  heat_exchange_areas : gmap string float;
  U_values : gmap string float
}.

Record Globals : Type := {
  cp : gmap string float;
  approach_temp : float;
  design : Design;
  K_p : float;
  dt : Z;
  end_time : Z;
  m_dot_oil : float;
  thermal_mass : gmap string float
}.

(** [dt] where the script uses it in float arithmetic. *)
Definition dtQ (g : Globals) : float := inject_Z (dt g).

(** ** 5. Heat transfer functions *)

Section HeatTransfer.

Variable g : Globals.

Definition calculate_insulation_loss (component_name : string) (T_current : float)
  : result (float * float) :=
  let key_outside := (component_name ++ "_outside")%string in
  U ← getitem (U_values (design g)) key_outside;
  A ← getitem (heat_exchange_areas (design g)) key_outside;
  let Q_loss := U * A * (T_current - ambient_temp (design g)) in
  if String.eqb component_name "pipe" then
    let m_dot := m_dot_oil g in
    cp_oil ← getitem (cp g) "oil";
    d ← py_div Q_loss (m_dot * cp_oil);
    let T_updated := T_current - d in
    Ok (Q_loss, T_updated)
  else
    Tmass ← getitem (thermal_mass g) component_name;
    d ← py_div (Q_loss * dtQ g) Tmass;
    let T_updated := T_current - d in
    Ok (Q_loss, T_updated).

Definition calculate_heat_transfer
    (T_hot_in T_cold_in thermal_mass_hot thermal_mass_cold : float)
    (max_duty : option float) (Exchanger_name : string)
  : result (float * float * float * string) :=
  U ← getitem (U_values (design g)) Exchanger_name;
  A ← getitem (heat_exchange_areas (design g)) Exchanger_name;
  let delta_T := py_max (T_hot_in - T_cold_in - approach_temp g) 0 in
  if Qle_bool delta_T 0 then
    Ok (0, T_hot_in, T_cold_in, "no transfer")
  else
    let Q_area := U * A * delta_T in
    Q_flow_hot ← py_div (thermal_mass_hot * delta_T) (dtQ g);
    Q_flow_cold ← py_div (thermal_mass_cold * delta_T) (dtQ g);
    let '(Q_lim, reason) := (Q_area, "area") in
    let '(Q_lim, reason) :=
      if Qltb Q_flow_hot Q_lim then (Q_flow_hot, "hot flow") else (Q_lim, reason) in
    let '(Q_lim, reason) :=
      if Qltb Q_flow_cold Q_lim then (Q_flow_cold, "cold flow") else (Q_lim, reason) in
    let '(Q_lim, reason) :=
      match max_duty with
      | Some cap => if Qltb cap Q_lim then (cap, "device") else (Q_lim, reason)
      | None => (Q_lim, reason)
      end in
    dh ← py_div (Q_lim * dtQ g) thermal_mass_hot;
    let T_hot_out := T_hot_in - dh in
    dc ← py_div (Q_lim * dtQ g) thermal_mass_cold;
    let T_cold_out := T_cold_in + dc in
    Ok (Q_lim, T_hot_out, T_cold_out, reason).

End HeatTransfer.

(** ** 6. Simulation *)

(** A cell of the [results] table: a number or a limiting-reason tag. *)
Inductive value : Type :=
| Num (x : float)
| Str (s : string).

(** The variables that live across iterations of the main loop. *)
Record State : Type := {
  T_oil : float;
  T_jacket : float;
  T_reactor : float;
  status : string;
  reaction_start_time : option Z
}.

(** The column names of [results], in the order the script writes them. *)
Definition result_columns : list string :=
  [ "time";
    "T_oil_out_heater"; "T_oil_after_pipe_to_jacket"; "T_oil_after_jacket";
    "T_oil_after_pipe_to_heater";
    "T_jacket"; "T_reactor";
    "Q_heater"; "Q_cooler"; "Q_oil_jacket"; "Q_jacket_reactor";
    "Q_pipe_to_jacket"; "Q_pipe_to_heater"; "Q_jacket_loss"; "Q_reactor_loss";
    "limit_heater"; "limit_cooler"; "limit_oil_jacket"; "limit_jacket_reactor";
    "Q_total_loss" ].

(** [results = { "time": [], ... }] *)
Definition initial_results : gmap string (list value) :=
  foldl (fun d k => <[k := []]> d) ∅ result_columns.

(** [results[k].append(v)] *)
Definition append (results : gmap string (list value)) (k : string) (v : value)
  : result (gmap string (list value)) :=
  col ← getitem results k;
  Ok (<[k := (col ++ [v])%list]> results).

(** A run of consecutive [results[k].append(v)] statements. *)
Fixpoint log (row : list (string * value)) (results : gmap string (list value))
  : result (gmap string (list value)) :=
  match row with
  | [] => Ok results
  | (k, v) :: row' => results' ← append results k v; log row' results'
  end.

Section Simulation.

Variable g : Globals.

Definition initial_state : State :=
  {| T_oil := ambient_temp (design g);
     T_jacket := ambient_temp (design g);
     T_reactor := ambient_temp (design g);
     status := "heating";
     reaction_start_time := None |}.

(** Step 1 of the loop body: the two status transitions. *)
Definition update_status (t : Z) (T_reactor : float) (status : string)
    (reaction_start_time : option Z) : result (string * option Z) :=
  let '(status, reaction_start_time) :=
    if String.eqb status "heating"
       && Qle_bool (reactor_max_temp (design g)) T_reactor
    then ("reaction", Some t)
    else (status, reaction_start_time) in
  if String.eqb status "reaction" then
    match reaction_start_time with
    | Some t0 =>
        if (reaction_time (design g) <=? t - t0)%Z
        then Ok ("cooling", reaction_start_time)
        else Ok (status, reaction_start_time)
    | None => Raise TypeError
    end
  else Ok (status, reaction_start_time).

(** The heater exit temperature target of step 2. *)
Definition T_heater_exit (T_oil T_reactor : float) : float :=
  let T_error := reactor_max_temp (design g) + 5 - T_reactor in
  py_min (oil_max_temp (design g)) (T_oil + K_p g * T_error).

(** Step 2 of the loop body: heater or cooler.  Returns
    [(Q_heater, Q_cooler, T_oil, limit_heater, limit_cooler)]. *)
Definition heater_cooler (status : string) (T_oil T_reactor : float)
  : result (float * float * float * string * string) :=
  if String.eqb status "heating" || String.eqb status "reaction" then
    let T_heater_exit := T_heater_exit T_oil T_reactor in
    flow_hot ← getitem (thermal_mass g) "flow";
    flow_cold ← getitem (thermal_mass g) "flow";
    '(Q_heater, _, T_oil, reason) ←
      calculate_heat_transfer g T_heater_exit T_oil flow_hot flow_cold
        (Some (heater_max_duty (design g))) "heater_oil";
    let Q_cooler := 0 in
    let limit_heater := reason in
    let limit_cooler := "no transfer" in
    Ok (Q_heater, Q_cooler, T_oil, limit_heater, limit_cooler)
  else if String.eqb status "cooling" then
    flow ← getitem (thermal_mass g) "flow";
    cooling ← getitem (thermal_mass g) "cooling";
    '(Q_cooler, _, T_oil, reason) ←
      calculate_heat_transfer g T_oil (cooling_water_temp (design g)) flow cooling
        (Some (cooler_max_duty (design g))) "cooler_oil";
    let Q_heater := 0 in
    let limit_cooler := reason in
    let limit_heater := "no transfer" in
    Ok (Q_heater, Q_cooler, T_oil, limit_heater, limit_cooler)
  else
    Ok (0, 0, T_oil, "no transfer", "no transfer").

(** One iteration of [for t in range(0, end_time, dt)]. *)
Definition loop_body (t : Z) (st : State) (results : gmap string (list value))
  : result (State * gmap string (list value)) :=
  let '(Build_State T_oil T_jacket T_reactor status reaction_start_time) := st in
  (* 1. status *)
  '(status, reaction_start_time) ←
    update_status t T_reactor status reaction_start_time;
  (* 2. heater / cooler *)
  '(Q_heater, Q_cooler, T_oil, limit_heater, limit_cooler) ←
    heater_cooler status T_oil T_reactor;
  let T_oil_out_heater := T_oil in
  (* 3. pipe to jacket *)
  '(Q_pipe_to_jacket, T_oil) ← calculate_insulation_loss g "pipe" T_oil;
  let T_oil_pipe_out := T_oil in
  (* 4. oil to jacket *)
  flow ← getitem (thermal_mass g) "flow";
  jacket ← getitem (thermal_mass g) "jacket";
  '(Q_oil_jacket, T_oil, T_jacket, reason) ←
    calculate_heat_transfer g T_oil T_jacket flow jacket None "oil_jacket";
  let limit_oil_jacket := reason in
  let T_oil_jacket_out := T_oil in
  (* 5. jacket to reactor *)
  jacket ← getitem (thermal_mass g) "jacket";
  reactor ← getitem (thermal_mass g) "reactor";
  '(Q_jacket_reactor, T_jacket, T_reactor, reason) ←
    calculate_heat_transfer g T_jacket T_reactor jacket reactor None "jacket_reactor";
  let limit_jacket_reactor := reason in
  (* 6. jacket insulation loss *)
  '(Q_jacket_loss, T_jacket) ← calculate_insulation_loss g "jacket" T_jacket;
  (* 7. reactor insulation loss *)
  '(Q_reactor_loss, T_reactor) ← calculate_insulation_loss g "reactor" T_reactor;
  (* 8. pipe to heater *)
  '(Q_pipe_to_heater, T_oil) ← calculate_insulation_loss g "pipe" T_oil;
  let T_oil_return := T_oil in
  let Q_total_loss :=
    Q_pipe_to_heater + Q_jacket_loss + Q_reactor_loss + Q_pipe_to_jacket in
  (* 9. log results *)
  results ← log
    [ ("time", Num (inject_Z t));
      ("T_oil_out_heater", Num T_oil_out_heater);
      ("T_oil_after_pipe_to_jacket", Num T_oil_pipe_out);
      ("T_oil_after_jacket", Num T_oil_jacket_out);
      ("T_oil_after_pipe_to_heater", Num T_oil_return);
      ("T_jacket", Num T_jacket);
      ("T_reactor", Num T_reactor);
      ("Q_heater", Num Q_heater);
      ("Q_cooler", Num Q_cooler);
      ("Q_oil_jacket", Num Q_oil_jacket);
      ("Q_jacket_reactor", Num Q_jacket_reactor);
      ("Q_pipe_to_jacket", Num Q_pipe_to_jacket);
      ("Q_pipe_to_heater", Num Q_pipe_to_heater);
      ("Q_jacket_loss", Num Q_jacket_loss);
      ("Q_reactor_loss", Num Q_reactor_loss);
      ("limit_heater", Str limit_heater);
      ("limit_cooler", Str limit_cooler);
      ("limit_oil_jacket", Str limit_oil_jacket);
      ("limit_jacket_reactor", Str limit_jacket_reactor);
      ("Q_total_loss", Num Q_total_loss) ]
    results;
  Ok (Build_State T_oil T_jacket T_reactor status reaction_start_time, results).

(** The loop over the values of the range. *)
Fixpoint run_loop (ts : list Z) (st : State) (results : gmap string (list value))
  : result (State * gmap string (list value)) :=
  match ts with
  | [] => Ok (st, results)
  | t :: ts' =>
      '(st', results') ← loop_body t st results;
      run_loop ts' st' results'
  end.

(** The whole of section 6 of the script. *)
Definition simulate : result (State * gmap string (list value)) :=
  ts ← py_range 0 (end_time g) (dt g);
  run_loop ts initial_state initial_results.

(** The states at the end of each iteration, in order (the script does
    not record [status]; this observes it). *)
Fixpoint run_states (ts : list Z) (st : State) (results : gmap string (list value))
  : result (list State) :=
  match ts with
  | [] => Ok []
  | t :: ts' =>
      '(st', results') ← loop_body t st results;
      rest ← run_states ts' st' results';
      Ok (st' :: rest)
  end.

End Simulation.

(** ** Sections 1 to 4 of the script: the values of the globals *)

#[global] Instance float_inhabited : Inhabited float := populate 0.

(** [s.split(sep)] for a one-character separator. *)
Fixpoint split_from (sep : ascii) (s : string) (word : string) : list string :=
  match s with
  | EmptyString => [word]
  | String c s' =>
      if Ascii.eqb c sep then word :: split_from sep s' EmptyString
      else split_from sep s' (word ++ String c EmptyString)%string
  end.

Definition split (sep : ascii) (s : string) : list string :=
  split_from sep s EmptyString.

(** Dictionary lookups at top level use keys that the literal dictionaries
    contain; [d !!! k] reads [d[k]] there. *)
Module V2.

(** [math.pi]: the double nearest to the circle constant, exactly. *)
Definition math_pi : float := 884279719003555 # 281474976710656.

(* 1. Physical constants *)
Definition cp : gmap string float :=
  <["steel" := 500]> (<["minerals" := 900]> (<["water" := 4186]> (<["oil" := 2200]> ∅))).
Definition rho : gmap string float :=
  <["water" := 1000]> (<["steel" := 8000]> (<["oil" := 800]> ∅)).
Definition approach_temp : float := 0.5.

(* 2. Design parameters *)
Definition Mineral_weight : float := 350.
Definition Water_weight : float := 150.
Definition K_p : float := 92.0.

Definition diameter : float := 1.5.
Definition radius : float := diameter / 2.
Definition height : float := 2.0.
Definition thickness : float := 0.03.

Definition pipe_length : float := 10.
Definition pipe_diameter : float := 0.0254.
Definition pipe_area : float := math_pi * pipe_diameter * pipe_length.
Definition pipe_volume : float := math_pi * (pipe_diameter / 2) ^ 2 * pipe_length.

Definition dt : Z := 60.
Definition end_time : Z := 6 * 3600.

Definition heat_exchange_areas : gmap string float :=
  <["reactor_outside" := 2 * math_pi * radius ^ 2]> (
  <["jacket_outside" := math_pi * diameter * height]> (
  <["pipe_outside" := pipe_area]> (
  <["cooler_oil" := 3.0]> (
  <["jacket_reactor" := math_pi * diameter * height]> (
  <["oil_jacket" := math_pi * diameter * height]> (
  <["heater_oil" := 5.0]> ∅)))))).

Definition U_values : gmap string float :=
  <["reactor_outside" := 3]> (
  <["jacket_outside" := 2]> (
  <["pipe_outside" := 2]> (
  <["cooler_oil" := 400]> (
  <["jacket_reactor" := 100]> (
  <["oil_jacket" := 150]> (
  <["heater_oil" := 200]> ∅)))))).

Definition design : Design :=
  Build_Design
    96e3         (* heater_max_duty *)
    60e3         (* cooler_max_duty *)
    10           (* oil_flow_m3_per_h *)
    30           (* water_flow_m3_per_h *)
    10           (* cooling_water_temp *)
    200          (* oil_max_temp *)
    240          (* jacket_max_temp *)
    175          (* reactor_max_temp *)
    25           (* ambient_temp *)
    (1 * 3600)   (* reaction_time *)
    heat_exchange_areas
    U_values.

(* 4. Flow rates *)
Definition m_dot_oil : float := rho !!! "oil" * oil_flow_m3_per_h design / 3600.
Definition m_dot_water : float := rho !!! "water" * water_flow_m3_per_h design / 3600.

(* 3. Mass and thermal mass *)
Definition shell_volume : float :=
  math_pi * (radius ^ 2 - (radius - thickness) ^ 2) * height.
Definition end_volume : float := 2 * math_pi * radius ^ 2 * thickness.

Definition mass_jacket : float := shell_volume * rho !!! "steel".
Definition mass_reactor : float := end_volume * rho !!! "steel".
Definition mass_oil : float := pipe_volume / 1000 * rho !!! "oil".

(** [masses], in insertion order. *)
Definition masses : list (string * float) :=
  [ ("steel_jacket", mass_jacket);
    ("steel_reactor", mass_reactor);
    ("oil_pipe", mass_oil);
    ("oil_flow", m_dot_oil * inject_Z dt);
    ("water_cooling", m_dot_water * inject_Z dt) ].

(** [{k.split("_")[1]: masses[k] * cp[k.split("_")[0]] for k in masses}] *)
Definition thermal_mass_comprehension : gmap string float :=
  foldl (fun d '(k, m) =>
           <[nth 1 (split "_" k) "" := m * cp !!! nth 0 (split "_" k) ""]> d)
        ∅ masses.

Definition thermal_mass : gmap string float :=
  let thermal_mass := thermal_mass_comprehension in
  let thermal_mass :=
    <["reactor_contents" :=
        Mineral_weight * cp !!! "minerals" + Water_weight * cp !!! "water"]>
      thermal_mass in
  <["reactor" := thermal_mass !!! "reactor" + thermal_mass !!! "reactor_contents"]>
    thermal_mass.

Definition globals : Globals :=
  Build_Globals cp approach_temp design K_p dt end_time m_dot_oil thermal_mass.

End V2.

(** ** The heat-transfer functions in double arithmetic *)

(** Python floats as they are: IEEE 754 binary64 numbers, with the
    operations rounding to nearest. *)
Abbreviation double := PrimFloat.float (only parsing).

#[global] Instance double_inhabited : Inhabited double := populate 0%float.

Module IEEE.

(** [x / y]: raises on a zero divisor, of either sign. *)
Definition py_div (x y : double) : result double :=
  if (y =? 0)%float then Raise ZeroDivisionError else Ok (x / y)%float.

(** [max(a, b)] keeps the first argument unless the second is larger. *)
Definition py_max (a b : double) : double := if (a <? b)%float then b else a.

(** [x ** 2].  CPython evaluates it with the C library's [pow]; it is
    taken here as the correctly rounded product.  The values derived from
    a square (the reactor end area, the shell, end and pipe volumes and
    the thermal masses of the jacket, the reactor and the pipe) are read
    by no statement of this development. *)
Definition square (x : double) : double := (x * x)%float.

Record Design : Type := {
  heater_max_duty : double;
  cooler_max_duty : double;
  oil_flow_m3_per_h : double;
  water_flow_m3_per_h : double;
  cooling_water_temp : double;
  oil_max_temp : double;
  jacket_max_temp : double;
  reactor_max_temp : double;
  ambient_temp : double;
  reaction_time : Z;
  heat_exchange_areas : gmap string double;
  U_values : gmap string double
}.

(** The globals the two functions read; [dt] is an int of the script and
    enters float arithmetic only. *)
Record Globals : Type := {
  cp : gmap string double;
  approach_temp : double;
  design : Design;
  dt : double;
  m_dot_oil : double;
  thermal_mass : gmap string double
}.

Definition calculate_insulation_loss (g : Globals) (component_name : string)
    (T_current : double) : result (double * double) :=
  let key_outside := (component_name ++ "_outside")%string in
  U ← getitem (U_values (design g)) key_outside;
  A ← getitem (heat_exchange_areas (design g)) key_outside;
  let Q_loss := (U * A * (T_current - ambient_temp (design g)))%float in
  if String.eqb component_name "pipe" then
    let m_dot := m_dot_oil g in
    cp_oil ← getitem (cp g) "oil";
    d ← py_div Q_loss (m_dot * cp_oil)%float;
    let T_updated := (T_current - d)%float in
    Ok (Q_loss, T_updated)
  else
    Tmass ← getitem (thermal_mass g) component_name;
    d ← py_div (Q_loss * dt g)%float Tmass;
    let T_updated := (T_current - d)%float in
    Ok (Q_loss, T_updated).

Definition calculate_heat_transfer (g : Globals)
    (T_hot_in T_cold_in thermal_mass_hot thermal_mass_cold : double)
    (max_duty : option double) (Exchanger_name : string)
  : result (double * double * double * string) :=
  U ← getitem (U_values (design g)) Exchanger_name;
  A ← getitem (heat_exchange_areas (design g)) Exchanger_name;
  let delta_T := py_max (T_hot_in - T_cold_in - approach_temp g)%float 0%float in
  if (delta_T <=? 0)%float then
    Ok (0%float, T_hot_in, T_cold_in, "no transfer")
  else
    let Q_area := (U * A * delta_T)%float in
    Q_flow_hot ← py_div (thermal_mass_hot * delta_T)%float (dt g);
    Q_flow_cold ← py_div (thermal_mass_cold * delta_T)%float (dt g);
    let '(Q_lim, reason) := (Q_area, "area") in
    let '(Q_lim, reason) :=
      if (Q_flow_hot <? Q_lim)%float then (Q_flow_hot, "hot flow") else (Q_lim, reason) in
    let '(Q_lim, reason) :=
      if (Q_flow_cold <? Q_lim)%float then (Q_flow_cold, "cold flow") else (Q_lim, reason) in
    let '(Q_lim, reason) :=
      match max_duty with
      | Some cap => if (cap <? Q_lim)%float then (cap, "device") else (Q_lim, reason)
      | None => (Q_lim, reason)
      end in
    dh ← py_div (Q_lim * dt g)%float thermal_mass_hot;
    let T_hot_out := (T_hot_in - dh)%float in
    dc ← py_div (Q_lim * dt g)%float thermal_mass_cold;
    let T_cold_out := (T_cold_in + dc)%float in
    Ok (Q_lim, T_hot_out, T_cold_out, reason).

(** Sections 1 to 4 of the script, evaluated as Python evaluates them. *)
Module V2.

(** [math.pi] *)
Definition math_pi : double := 0x1.921fb54442d18p+1%float.

Definition cp : gmap string double :=
  <["steel" := 500%float]> (<["minerals" := 900%float]> (
  <["water" := 4186%float]> (<["oil" := 2200%float]> ∅))).
Definition rho : gmap string double :=
  <["water" := 1000%float]> (<["steel" := 8000%float]> (<["oil" := 800%float]> ∅)).
Definition approach_temp : double := 0.5%float.

Definition Mineral_weight : double := 350%float.
Definition Water_weight : double := 150%float.

Definition diameter : double := 1.5%float.
Definition radius : double := (diameter / 2)%float.
Definition height : double := 2.0%float.
Definition thickness : double := 0.03%float.

Definition pipe_length : double := 10%float.
Definition pipe_diameter : double := 0.0254%float.
Definition pipe_area : double := (math_pi * pipe_diameter * pipe_length)%float.
Definition pipe_volume : double :=
  (math_pi * square (pipe_diameter / 2) * pipe_length)%float.

Definition dt : double := 60%float.

Definition heat_exchange_areas : gmap string double :=
  <["reactor_outside" := (2 * math_pi * square radius)%float]> (
  <["jacket_outside" := (math_pi * diameter * height)%float]> (
  <["pipe_outside" := pipe_area]> (
  <["cooler_oil" := 3.0%float]> (
  <["jacket_reactor" := (math_pi * diameter * height)%float]> (
  <["oil_jacket" := (math_pi * diameter * height)%float]> (
  <["heater_oil" := 5.0%float]> ∅)))))).

Definition U_values : gmap string double :=
  <["reactor_outside" := 3%float]> (
  <["jacket_outside" := 2%float]> (
  <["pipe_outside" := 2%float]> (
  <["cooler_oil" := 400%float]> (
  <["jacket_reactor" := 100%float]> (
  <["oil_jacket" := 150%float]> (
  <["heater_oil" := 200%float]> ∅)))))).

Definition design : Design :=
  Build_Design
    96e3%float   (* heater_max_duty *)
    60e3%float   (* cooler_max_duty *)
    10%float     (* oil_flow_m3_per_h *)
    30%float     (* water_flow_m3_per_h *)
    10%float     (* cooling_water_temp *)
    200%float    (* oil_max_temp *)
    240%float    (* jacket_max_temp *)
    175%float    (* reactor_max_temp *)
    25%float     (* ambient_temp *)
    (1 * 3600)   (* reaction_time *)
    heat_exchange_areas
    U_values.

Definition m_dot_oil : double :=
  (rho !!! "oil" * oil_flow_m3_per_h design / 3600)%float.
Definition m_dot_water : double :=
  (rho !!! "water" * water_flow_m3_per_h design / 3600)%float.

Definition shell_volume : double :=
  (math_pi * (square radius - square (radius - thickness)) * height)%float.
Definition end_volume : double := (2 * math_pi * square radius * thickness)%float.

Definition mass_jacket : double := (shell_volume * rho !!! "steel")%float.
Definition mass_reactor : double := (end_volume * rho !!! "steel")%float.
Definition mass_oil : double := (pipe_volume / 1000 * rho !!! "oil")%float.

Definition masses : list (string * double) :=
  [ ("steel_jacket", mass_jacket);
    ("steel_reactor", mass_reactor);
    ("oil_pipe", mass_oil);
    ("oil_flow", (m_dot_oil * dt)%float);
    ("water_cooling", (m_dot_water * dt)%float) ].

Definition thermal_mass_comprehension : gmap string double :=
  foldl (fun d '(k, m) =>
           <[nth 1 (split "_" k) "" := (m * cp !!! nth 0 (split "_" k) "")%float]> d)
        ∅ masses.

Definition thermal_mass : gmap string double :=
  let thermal_mass := thermal_mass_comprehension in
  let thermal_mass :=
    <["reactor_contents" :=
        (Mineral_weight * cp !!! "minerals" + Water_weight * cp !!! "water")%float]>
      thermal_mass in
  <["reactor" := (thermal_mass !!! "reactor" + thermal_mass !!! "reactor_contents")%float]>
    thermal_mass.

Definition globals : Globals :=
  Build_Globals cp approach_temp design dt m_dot_oil thermal_mass.

End V2.

End IEEE.

(** * Vocabulary of the properties *)

(** The arbitration between the duty candidates (the block "Determine the
    limiting Q" of [calculate_heat_transfer]), on its own. *)
Definition limiting (Q_area Q_flow_hot Q_flow_cold : float) (max_duty : option float)
  : float * string :=
  let '(Q_lim, reason) := (Q_area, "area") in
  let '(Q_lim, reason) :=
    if Qltb Q_flow_hot Q_lim then (Q_flow_hot, "hot flow") else (Q_lim, reason) in
  let '(Q_lim, reason) :=
    if Qltb Q_flow_cold Q_lim then (Q_flow_cold, "cold flow") else (Q_lim, reason) in
  match max_duty with
  | Some cap => if Qltb cap Q_lim then (cap, "device") else (Q_lim, reason)
  | None => (Q_lim, reason)
  end.

(** The effective driving force of a call. *)
Definition delta_T (g : Globals) (T_hot_in T_cold_in : float) : float :=
  py_max (T_hot_in - T_cold_in - approach_temp g) 0.

(** The smallest of the applicable duty candidates. *)
Definition candidates_min (Q_area Q_flow_hot Q_flow_cold : float)
    (max_duty : option float) : float :=
  match max_duty with
  | Some cap => Qmin (Qmin (Qmin Q_area Q_flow_hot) Q_flow_cold) cap
  | None => Qmin (Qmin Q_area Q_flow_hot) Q_flow_cold
  end.

(** The winner in the precedence area, hot flow, cold flow, device, where a
    later candidate wins only if it is strictly below all earlier ones. *)
Definition reason_by_precedence (Q_area Q_flow_hot Q_flow_cold : float)
    (max_duty : option float) : string :=
  if match max_duty with
     | Some cap => Qltb cap (Qmin (Qmin Q_area Q_flow_hot) Q_flow_cold)
     | None => false
     end
  then "device"
  else if Qltb Q_flow_cold (Qmin Q_area Q_flow_hot) then "cold flow"
  else if Qltb Q_flow_hot Q_area then "hot flow"
  else "area".

(** Position of a status in the order heating, reaction, cooling. *)
Definition status_rank (s : string) : option nat :=
  if String.eqb s "heating" then Some 0%nat
  else if String.eqb s "reaction" then Some 1%nat
  else if String.eqb s "cooling" then Some 2%nat
  else None.

Definition status_le (s s' : string) : Prop :=
  exists i j : nat, status_rank s = Some i /\ status_rank s' = Some j /\ (i <= j)%nat.

(** [reaction_start_time] is unset exactly while the status is heating. *)
Definition state_inv (s : State) : Prop :=
  (status s = "heating" /\ reaction_start_time s = None) \/
  ((status s = "reaction" \/ status s = "cooling") /\
   exists t0, reaction_start_time s = Some t0).

(** What one iteration at time [t] may do to the status and to
    [reaction_start_time], from the state [s] before it to the state [s']
    after it. *)
Definition legal_step (g : Globals) (t : Z) (s s' : State) : Prop :=
  status_le (status s) (status s') /\
  (status s = "heating" -> status s' <> "heating" ->
   reactor_max_temp (design g) <= T_reactor s /\ reaction_start_time s' = Some t) /\
  (status s <> "cooling" -> status s' = "cooling" ->
   exists t0, reaction_start_time s' = Some t0 /\ (reaction_time (design g) <= t - t0)%Z) /\
  (status s = "cooling" -> status s' = "cooling") /\
  (~ (status s = "heating" /\ status s' <> "heating") ->
   reaction_start_time s' = reaction_start_time s) /\
  state_inv s'.

(** [legal_step] along a whole run. *)
Fixpoint steps_legal (g : Globals) (ts : list Z) (s : State) (trace : list State) : Prop :=
  match ts, trace with
  | [], [] => True
  | t :: ts', s' :: trace' => legal_step g t s s' /\ steps_legal g ts' s' trace'
  | _, _ => False
  end.

Definition has_key {V : Type} (d : gmap string V) (k : string) : bool :=
  match d !! k with Some _ => true | None => false end.

Definition has_positive (d : gmap string float) (k : string) : bool :=
  match d !! k with Some v => Qltb 0 v | None => false end.

(** The names the driver looks up. *)
Definition exchanger_keys : list string :=
  ["heater_oil"; "cooler_oil"; "oil_jacket"; "jacket_reactor";
   "pipe_outside"; "jacket_outside"; "reactor_outside"].

(** The configuration constraints under which no step of the driver
    raises: positive timestep, every exchanger and insulation path
    configured, positive capacitances and oil mass flow. *)
Definition config_ok (g : Globals) : bool :=
  (0 <? dt g)%Z
  && forallb (has_key (U_values (design g))) exchanger_keys
  && forallb (has_key (heat_exchange_areas (design g))) exchanger_keys
  && forallb (has_positive (thermal_mass g)) ["flow"; "cooling"; "jacket"; "reactor"]
  && has_positive (cp g) "oil"
  && Qltb 0 (m_dot_oil g).

(** Every column named in [keys] is present with [n] entries, and there
    is no other column. *)
Definition cols_inv (keys : list string) (n : nat)
    (results : gmap string (list value)) : Prop :=
  forall k,
    (k ∈ keys -> exists col, results !! k = Some col /\ length col = n) /\
    (k ∉ keys -> results !! k = None).

(** Positive [U] and [A] for every exchanger and insulation path, and
    non-negative device caps. *)
Definition design_ok (g : Globals) : bool :=
  forallb (has_positive (U_values (design g))) exchanger_keys
  && forallb (has_positive (heat_exchange_areas (design g))) exchanger_keys
  && Qle_bool 0 (heater_max_duty (design g))
  && Qle_bool 0 (cooler_max_duty (design g)).

(** The dictionary that maps every key of [keys] to 1. *)
Definition demo_dict (keys : list string) : gmap string float :=
  foldl (fun d k => <[k := 1]> d) ∅ keys.

(** A configuration with unit capacitances, coefficients and timestep, on
    which several iterations evaluate quickly: device caps 30, oil maximum
    60, reactor maximum 30, ambient 20, hold duration 2, end time 8. *)
Definition demo : Globals :=
  Build_Globals
    (demo_dict ["oil"]) 1
    (Build_Design 30 30 1 1 0 60 50 30 20 2
       (demo_dict exchanger_keys) (demo_dict exchanger_keys))
    1 1 8 1
    (demo_dict ["flow"; "cooling"; "jacket"; "reactor"]).

(** Everything one iteration computes. *)
Record Iteration : Type := {
  it_status : string;
  it_reaction_start_time : option Z;
  it_Q_heater : float;
  it_Q_cooler : float;
  it_T_oil_out_heater : float;
  it_limit_heater : string;
  it_limit_cooler : string;
  it_Q_pipe_to_jacket : float;
  it_T_oil_pipe_out : float;
  it_Q_oil_jacket : float;
  it_T_oil_jacket_out : float;
  it_T_jacket_after_oil : float;
  it_limit_oil_jacket : string;
  it_Q_jacket_reactor : float;
  it_T_jacket_before_loss : float;
  it_T_reactor_before_loss : float;
  it_limit_jacket_reactor : string;
  it_Q_jacket_loss : float;
  it_T_jacket : float;
  it_Q_reactor_loss : float;
  it_T_reactor : float;
  it_Q_pipe_to_heater : float;
  it_T_oil_return : float
}.

(** The calls of the loop body at time [t] from state [st], in order,
    returned the values held in [it]. *)
Definition iteration_of (g : Globals) (t : Z) (st : State) (it : Iteration) : Prop :=
  update_status g t (T_reactor st) (status st) (reaction_start_time st)
  = Ok (it_status it, it_reaction_start_time it) /\
  heater_cooler g (it_status it) (T_oil st) (T_reactor st)
  = Ok (it_Q_heater it, it_Q_cooler it, it_T_oil_out_heater it,
        it_limit_heater it, it_limit_cooler it) /\
  calculate_insulation_loss g "pipe" (it_T_oil_out_heater it)
  = Ok (it_Q_pipe_to_jacket it, it_T_oil_pipe_out it) /\
  (exists flow jacket reactor,
     getitem (thermal_mass g) "flow" = Ok flow /\
     getitem (thermal_mass g) "jacket" = Ok jacket /\
     getitem (thermal_mass g) "reactor" = Ok reactor /\
     calculate_heat_transfer g (it_T_oil_pipe_out it) (T_jacket st) flow jacket
       None "oil_jacket"
     = Ok (it_Q_oil_jacket it, it_T_oil_jacket_out it, it_T_jacket_after_oil it,
           it_limit_oil_jacket it) /\
     calculate_heat_transfer g (it_T_jacket_after_oil it) (T_reactor st) jacket reactor
       None "jacket_reactor"
     = Ok (it_Q_jacket_reactor it, it_T_jacket_before_loss it,
           it_T_reactor_before_loss it, it_limit_jacket_reactor it)) /\
  calculate_insulation_loss g "jacket" (it_T_jacket_before_loss it)
  = Ok (it_Q_jacket_loss it, it_T_jacket it) /\
  calculate_insulation_loss g "reactor" (it_T_reactor_before_loss it)
  = Ok (it_Q_reactor_loss it, it_T_reactor it) /\
  calculate_insulation_loss g "pipe" (it_T_oil_jacket_out it)
  = Ok (it_Q_pipe_to_heater it, it_T_oil_return it).

(** The state an iteration hands to the next one. *)
Definition iteration_state (it : Iteration) : State :=
  Build_State (it_T_oil_return it) (it_T_jacket it) (it_T_reactor it)
              (it_status it) (it_reaction_start_time it).

(** The row an iteration logs. *)
Definition iteration_row (t : Z) (it : Iteration) : list (string * value) :=
  [ ("time", Num (inject_Z t));
    ("T_oil_out_heater", Num (it_T_oil_out_heater it));
    ("T_oil_after_pipe_to_jacket", Num (it_T_oil_pipe_out it));
    ("T_oil_after_jacket", Num (it_T_oil_jacket_out it));
    ("T_oil_after_pipe_to_heater", Num (it_T_oil_return it));
    ("T_jacket", Num (it_T_jacket it));
    ("T_reactor", Num (it_T_reactor it));
    ("Q_heater", Num (it_Q_heater it));
    ("Q_cooler", Num (it_Q_cooler it));
    ("Q_oil_jacket", Num (it_Q_oil_jacket it));
    ("Q_jacket_reactor", Num (it_Q_jacket_reactor it));
    ("Q_pipe_to_jacket", Num (it_Q_pipe_to_jacket it));
    ("Q_pipe_to_heater", Num (it_Q_pipe_to_heater it));
    ("Q_jacket_loss", Num (it_Q_jacket_loss it));
    ("Q_reactor_loss", Num (it_Q_reactor_loss it));
    ("limit_heater", Str (it_limit_heater it));
    ("limit_cooler", Str (it_limit_cooler it));
    ("limit_oil_jacket", Str (it_limit_oil_jacket it));
    ("limit_jacket_reactor", Str (it_limit_jacket_reactor it));
    ("Q_total_loss",
     Num (it_Q_pipe_to_heater it + it_Q_jacket_loss it + it_Q_reactor_loss it
          + it_Q_pipe_to_jacket it)) ].

(** The entry of a row under a column name. *)
Fixpoint row_value (row : list (string * value)) (k : string) : option value :=
  match row with
  | [] => None
  | (k', v) :: row' => if String.eqb k' k then Some v else row_value row' k
  end.

(** The iterations of a run, each starting from the state the previous
    one left. *)
Fixpoint iterations_of (g : Globals) (ts : list Z) (st : State)
    (its : list Iteration) : Prop :=
  match ts, its with
  | [], [] => True
  | t :: ts', it :: its' =>
      iteration_of g t st it /\ iterations_of g ts' (iteration_state it) its'
  | _, _ => False
  end.

(** The rows of a run, and one column of them. *)
Definition rows_of (ts : list Z) (its : list Iteration) : list (list (string * value)) :=
  zip_with iteration_row ts its.

Definition column_of (rows : list (list (string * value))) (k : string) : list value :=
  omap (fun row => row_value row k) rows.

(** The entry of [results] in column [k] at row [i]. *)
Definition cell (results : gmap string (list value)) (k : string) (i : nat)
  : option value :=
  results !! k ≫= fun col => col !! i.

(** Reading a cell off a run that has been evaluated. *)
Definition cell_of_run (r : result (State * gmap string (list value)))
    (k : string) (i : nat) : option value :=
  match r with
  | Ok (_, results) => cell results k i
  | Raise _ => None
  end.

(** The five limiting-reason tags. *)
Definition limit_tags : list string :=
  ["area"; "hot flow"; "cold flow"; "device"; "no transfer"].

(** * Properties *)

(** ** The model on concrete inputs *)

Example range_stops_before_end : py_range 0 10 3 = Ok [0; 3; 6; 9]%Z.
Proof. reflexivity. Qed.

Example range_left_closed : py_range 0 9 3 = Ok [0; 3; 6]%Z.
Proof. reflexivity. Qed.

Example range_zero_step : py_range 0 9 0 = Raise ValueError.
Proof. reflexivity. Qed.

Example split_key : split "_" "steel_jacket" = ["steel"; "jacket"].
Proof. reflexivity. Qed.

Example thermal_mass_keys :
  map (has_key V2.thermal_mass)
      ["jacket"; "reactor"; "pipe"; "flow"; "cooling"; "reactor_contents"; "steel"]
  = [true; true; true; true; true; true; false].
Proof. vm_compute. reflexivity. Qed.

Example thermal_mass_flow : V2.thermal_mass !! "flow" = Some (V2.m_dot_oil * 60 * 2200).
Proof. reflexivity. Qed.

Example unknown_exchanger :
  calculate_heat_transfer V2.globals 100 20 1 1 None "" = Raise (KeyError "").
Proof. reflexivity. Qed.

Example zero_capacitance :
  calculate_heat_transfer V2.globals 100 20 0 1 None "heater_oil"
  = Raise ZeroDivisionError.
Proof. vm_compute. reflexivity. Qed.

Example status_stays_heating :
  update_status V2.globals 0 25 "heating" None = Ok ("heating", None).
Proof. reflexivity. Qed.

Example status_enters_reaction :
  update_status V2.globals 7200 175 "heating" None = Ok ("reaction", Some 7200%Z).
Proof. reflexivity. Qed.

Example status_holds_reaction :
  update_status V2.globals 10740 170 "reaction" (Some 7200%Z)
  = Ok ("reaction", Some 7200%Z).
Proof. reflexivity. Qed.

Example status_enters_cooling :
  update_status V2.globals 10800 170 "reaction" (Some 7200%Z)
  = Ok ("cooling", Some 7200%Z).
Proof. reflexivity. Qed.

Example status_cooling_is_terminal :
  update_status V2.globals 10860 180 "cooling" (Some 7200%Z)
  = Ok ("cooling", Some 7200%Z).
Proof. reflexivity. Qed.

Example config_ok_V2 : config_ok V2.globals = true.
Proof. vm_compute. reflexivity. Qed.

(** ** The two functions in double arithmetic *)

(** The constants of the script, as Python computes them. *)
Example double_constants :
  IEEE.V2.globals.(IEEE.m_dot_oil) = 2.2222222222222223%float /\
  IEEE.heat_exchange_areas (IEEE.design IEEE.V2.globals) !! "pipe_outside"
  = Some 0.79796453401180745%float /\
  IEEE.thermal_mass IEEE.V2.globals !! "flow" = Some 293333.33333333337%float.
Proof. repeat split; vm_compute; reflexivity. Qed.

(** A call within the approach temperature returns its inlets, whatever
    the capacitances. *)
Example double_no_transfer :
  IEEE.calculate_heat_transfer IEEE.V2.globals 25.5%float 25%float 0%float 0%float
    None "heater_oil"
  = Ok (0%float, 25.5%float, 25%float, "no transfer").
Proof. vm_compute. reflexivity. Qed.

Example double_zero_capacitance :
  IEEE.calculate_heat_transfer IEEE.V2.globals 100%float 20%float 0%float 1%float
    None "heater_oil"
  = Raise ZeroDivisionError.
Proof. vm_compute. reflexivity. Qed.

(** The energy balance is not exact in doubles: on the device-limited
    heater call with inlets 1 and 0 and capacitances 60000 and 72000, the
    duty times the timestep is 6000 while
    [60000 (1 - T_hot_out) = 5999.9999999999991]. *)
Example energy_balance_inexact_in_doubles :
  exists Q_lim T_hot_out T_cold_out reason,
    IEEE.calculate_heat_transfer IEEE.V2.globals
      1%float 0%float 60000%float 72000%float (Some 100%float) "heater_oil"
    = Ok (Q_lim, T_hot_out, T_cold_out, reason) /\
    (Q_lim * IEEE.dt IEEE.V2.globals)%float = 6000%float /\
    (60000 * (1 - T_hot_out))%float = 5999.9999999999991%float /\
    (Q_lim * IEEE.dt IEEE.V2.globals =? 60000 * (1 - T_hot_out))%float = false.
Proof.
  exists 100%float, 0.90000000000000002%float, 0.083333333333333329%float, "device".
  split; [vm_compute; reflexivity|].
  repeat split; vm_compute; reflexivity.
Qed.

(** Next to ambient a loss can be too small to move the temperature: on
    the pipe at 25.000000000001 the loss is positive and the updated
    temperature is the current one. *)
Example insulation_loss_absorbed_by_rounding :
  exists Q_loss T_updated,
    IEEE.calculate_insulation_loss IEEE.V2.globals "pipe" 25.000000000001%float
    = Ok (Q_loss, T_updated) /\
    (0 <? Q_loss)%float = true /\
    (T_updated =? 25.000000000001)%float = true.
Proof.
  exists 1.5932360075319558e-12%float, 25.000000000001%float.
  split; [vm_compute; reflexivity|].
  split; vm_compute; reflexivity.
Qed.

(** ** Basic facts about the primitives *)

Lemma Qltb_lt (x y : Q) : Qltb x y = true <-> x < y.
Proof.
  unfold Qltb. rewrite Qlt_alt. destruct (x ?= y); split; congruence.
Qed.

Lemma Qltb_ge (x y : Q) : Qltb x y = false <-> y <= x.
Proof.
  split.
  - intros H. apply Qnot_lt_le. intros Hlt. apply Qltb_lt in Hlt. congruence.
  - intros H. destruct (Qltb x y) eqn:E; [|reflexivity].
    apply Qltb_lt in E. lra.
Qed.

Lemma Qle_bool_gt (x y : Q) : Qle_bool x y = false <-> y < x.
Proof.
  split.
  - intros H. apply Qnot_le_lt. intros Hle. apply Qle_bool_iff in Hle. congruence.
  - intros H. destruct (Qle_bool x y) eqn:E; [|reflexivity].
    apply Qle_bool_iff in E. lra.
Qed.

Lemma bind_Ok {A B : Type} (m : result A) (f : A -> result B) (b : B) :
  m ≫= f = Ok b -> exists a, m = Ok a /\ f a = Ok b.
Proof. destruct m as [a|e]; simpl; [eauto | discriminate]. Qed.

Lemma getitem_Ok {V : Type} (d : gmap string V) (k : string) (v : V) :
  getitem d k = Ok v <-> d !! k = Some v.
Proof. unfold getitem. destruct (d !! k); split; congruence. Qed.

Lemma py_div_Ok (x y d : float) :
  py_div x y = Ok d <-> ~ y == 0 /\ d = x / y.
Proof.
  unfold py_div. destruct (Qeq_bool y 0) eqn:E.
  - apply Qeq_bool_eq in E. split; [discriminate | tauto].
  - apply Qeq_bool_neq in E. split.
    + intros [= <-]. auto.
    + intros [_ ->]. reflexivity.
Qed.

Lemma py_max_0 (x : float) :
  (x <= 0 /\ py_max x 0 == 0) \/ (0 < x /\ py_max x 0 = x).
Proof.
  unfold py_max. destruct (Qltb x 0) eqn:E.
  - apply Qltb_lt in E. left. split; lra.
  - apply Qltb_ge in E. destruct (Qlt_le_dec 0 x); [right | left]; split; auto; lra.
Qed.

(** ** The two-node exchange, case by case *)

Section Exchange.

Variable g : Globals.
Variables T_hot_in T_cold_in thermal_mass_hot thermal_mass_cold : float.
Variable max_duty : option float.
Variable Exchanger_name : string.

Local Abbreviation dT := (delta_T g T_hot_in T_cold_in).

(** Every call that returns took one of the two paths of the function. *)
Lemma calculate_heat_transfer_inv (Q_lim T_hot_out T_cold_out : float) (reason : string) :
  calculate_heat_transfer g T_hot_in T_cold_in thermal_mass_hot thermal_mass_cold
    max_duty Exchanger_name = Ok (Q_lim, T_hot_out, T_cold_out, reason) ->
  exists U A,
    U_values (design g) !! Exchanger_name = Some U /\
    heat_exchange_areas (design g) !! Exchanger_name = Some A /\
    ((dT <= 0 /\ (Q_lim, T_hot_out, T_cold_out, reason) = (0, T_hot_in, T_cold_in, "no transfer"))
     \/
     (0 < dT /\ ~ dtQ g == 0 /\ ~ thermal_mass_hot == 0 /\ ~ thermal_mass_cold == 0 /\
      (Q_lim, reason) =
        limiting (U * A * dT) (thermal_mass_hot * dT / dtQ g)
                 (thermal_mass_cold * dT / dtQ g) max_duty /\
      T_hot_out = T_hot_in - Q_lim * dtQ g / thermal_mass_hot /\
      T_cold_out = T_cold_in + Q_lim * dtQ g / thermal_mass_cold)).
Proof.
  unfold calculate_heat_transfer. intros H.
  apply bind_Ok in H as (U & HU & H). apply bind_Ok in H as (A & HA & H).
  apply getitem_Ok in HU, HA. exists U, A. split; [exact HU|]. split; [exact HA|].
  fold (delta_T g T_hot_in T_cold_in) in H.
  destruct (Qle_bool dT 0) eqn:Hle.
  - left. apply Qle_bool_iff in Hle. split; [exact Hle | congruence].
  - right. apply Qle_bool_gt in Hle.
    apply bind_Ok in H as (Qh & HQh & H). apply bind_Ok in H as (Qc & HQc & H).
    apply py_div_Ok in HQh as [Hdt ->]. apply py_div_Ok in HQc as [_ ->].
    unfold limiting.
    destruct (if Qltb (thermal_mass_hot * dT / dtQ g) (U * A * dT)
              then (thermal_mass_hot * dT / dtQ g, "hot flow")
              else (U * A * dT, "area")) as [Q1 r1].
    destruct (if Qltb (thermal_mass_cold * dT / dtQ g) Q1
              then (thermal_mass_cold * dT / dtQ g, "cold flow")
              else (Q1, r1)) as [Q2 r2].
    destruct (match max_duty with
              | Some cap => if Qltb cap Q2 then (cap, "device") else (Q2, r2)
              | None => (Q2, r2)
              end) as [Q3 r3].
    apply bind_Ok in H as (dh & Hdh & H). apply bind_Ok in H as (dc & Hdc & H).
    apply py_div_Ok in Hdh as [Hmh ->]. apply py_div_Ok in Hdc as [Hmc ->].
    injection H as <- <- <- <-. auto 10.
Qed.

(** Conversely, the call returns whenever its lookups and divisions are
    defined. *)
Lemma calculate_heat_transfer_no_transfer (U A : float) :
  U_values (design g) !! Exchanger_name = Some U ->
  heat_exchange_areas (design g) !! Exchanger_name = Some A ->
  dT <= 0 ->
  calculate_heat_transfer g T_hot_in T_cold_in thermal_mass_hot thermal_mass_cold
    max_duty Exchanger_name = Ok (0, T_hot_in, T_cold_in, "no transfer").
Proof.
  intros HU HA Hle. unfold calculate_heat_transfer.
  apply getitem_Ok in HU, HA. rewrite HU, HA. simpl.
  fold (delta_T g T_hot_in T_cold_in).
  apply Qle_bool_iff in Hle. rewrite Hle. reflexivity.
Qed.

Lemma calculate_heat_transfer_transfer (U A : float) :
  U_values (design g) !! Exchanger_name = Some U ->
  heat_exchange_areas (design g) !! Exchanger_name = Some A ->
  0 < dT -> ~ dtQ g == 0 -> ~ thermal_mass_hot == 0 -> ~ thermal_mass_cold == 0 ->
  exists Q_lim reason,
    limiting (U * A * dT) (thermal_mass_hot * dT / dtQ g)
             (thermal_mass_cold * dT / dtQ g) max_duty = (Q_lim, reason) /\
    calculate_heat_transfer g T_hot_in T_cold_in thermal_mass_hot thermal_mass_cold
      max_duty Exchanger_name
    = Ok (Q_lim, T_hot_in - Q_lim * dtQ g / thermal_mass_hot,
          T_cold_in + Q_lim * dtQ g / thermal_mass_cold, reason).
Proof.
  intros HU HA Hlt Hdt Hmh Hmc. unfold calculate_heat_transfer.
  apply getitem_Ok in HU, HA. rewrite HU, HA. simpl.
  fold (delta_T g T_hot_in T_cold_in).
  apply Qle_bool_gt in Hlt. rewrite Hlt.
  assert (Hd : forall x y, ~ y == 0 -> py_div x y = Ok (x / y)).
  { intros x y Hy. apply py_div_Ok. auto. }
  rewrite !(Hd _ _ Hdt). simpl.
  unfold limiting.
  destruct (if Qltb (thermal_mass_hot * dT / dtQ g) (U * A * dT)
            then (thermal_mass_hot * dT / dtQ g, "hot flow")
            else (U * A * dT, "area")) as [Q1 r1].
  destruct (if Qltb (thermal_mass_cold * dT / dtQ g) Q1
            then (thermal_mass_cold * dT / dtQ g, "cold flow")
            else (Q1, r1)) as [Q2 r2].
  destruct (match max_duty with
            | Some cap => if Qltb cap Q2 then (cap, "device") else (Q2, r2)
            | None => (Q2, r2)
            end) as [Q3 r3].
  exists Q3, r3. split; [reflexivity|].
  rewrite (Hd _ _ Hmh). simpl. rewrite (Hd _ _ Hmc). reflexivity.
Qed.

End Exchange.

(** ** The arbitration, against its description *)

Lemma Qmin_ltb (a b : Q) : Qmin a b = if Qltb b a then b else a.
Proof.
  unfold Qmin, GenericMinMax.gmin, Qltb.
  rewrite <- (Qcompare_antisym a b). destruct (a ?= b); reflexivity.
Qed.

(** Case analysis on every comparison in sight, leaving linear arithmetic. *)
Ltac split_comparisons :=
  rewrite ?Qmin_ltb in *;
  repeat match goal with
    | |- context [Qltb ?a ?b] =>
        let E := fresh "E" in
        destruct (Qltb a b) eqn:E; [apply Qltb_lt in E | apply Qltb_ge in E]
    | H : context [Qltb ?a ?b] |- _ =>
        let E := fresh "E" in
        destruct (Qltb a b) eqn:E; [apply Qltb_lt in E | apply Qltb_ge in E]
    end.

Lemma limiting_min (Q_area Q_flow_hot Q_flow_cold : float) (max_duty : option float) :
  (limiting Q_area Q_flow_hot Q_flow_cold max_duty).1
  == candidates_min Q_area Q_flow_hot Q_flow_cold max_duty.
Proof.
  unfold limiting, candidates_min.
  destruct max_duty as [cap|]; split_comparisons; simpl; lra.
Qed.

Lemma limiting_reason (Q_area Q_flow_hot Q_flow_cold : float) (max_duty : option float) :
  (limiting Q_area Q_flow_hot Q_flow_cold max_duty).2
  = reason_by_precedence Q_area Q_flow_hot Q_flow_cold max_duty.
Proof.
  unfold limiting, reason_by_precedence.
  destruct max_duty as [cap|]; split_comparisons; simpl; try reflexivity; exfalso; lra.
Qed.

Lemma limiting_nonneg (Q_area Q_flow_hot Q_flow_cold : float) (max_duty : option float) :
  0 <= Q_area -> 0 <= Q_flow_hot -> 0 <= Q_flow_cold ->
  (forall cap, max_duty = Some cap -> 0 <= cap) ->
  0 <= (limiting Q_area Q_flow_hot Q_flow_cold max_duty).1.
Proof.
  intros Ha Hh Hc Hcap. rewrite limiting_min. unfold candidates_min.
  destruct max_duty as [cap|]; [specialize (Hcap cap eq_refl)|];
    split_comparisons; lra.
Qed.

Lemma limiting_le_flow (Q_area Q_flow_hot Q_flow_cold : float) (max_duty : option float) :
  (limiting Q_area Q_flow_hot Q_flow_cold max_duty).1 <= Q_flow_hot /\
  (limiting Q_area Q_flow_hot Q_flow_cold max_duty).1 <= Q_flow_cold.
Proof.
  rewrite limiting_min. unfold candidates_min.
  destruct max_duty as [cap|]; split_comparisons; lra.
Qed.

Lemma dtQ_pos (g : Globals) : (0 < dt g)%Z -> 0 < dtQ g.
Proof. intros H. unfold dtQ. rewrite Zlt_Qlt in H. exact H. Qed.

Lemma Qdiv_nonneg (a b : Q) : 0 <= a -> 0 < b -> 0 <= a / b.
Proof. intros Ha Hb. apply Qle_shift_div_l; [exact Hb | lra]. Qed.

(** ** Claims about the two-node exchange *)

(** C5.  A call whose inlet difference does not exceed the approach
    temperature returns a zero duty, both inlet temperatures unchanged and
    the reason "no transfer" (for an exchanger that is configured). *)
Theorem heat_transfer_no_transfer_boundary
    (g : Globals) (T_hot_in T_cold_in thermal_mass_hot thermal_mass_cold : float)
    (max_duty : option float) (Exchanger_name : string) (U A : float) :
  U_values (design g) !! Exchanger_name = Some U ->
  heat_exchange_areas (design g) !! Exchanger_name = Some A ->
  T_hot_in - T_cold_in <= approach_temp g ->
  calculate_heat_transfer g T_hot_in T_cold_in thermal_mass_hot thermal_mass_cold
    max_duty Exchanger_name
  = Ok (0, T_hot_in, T_cold_in, "no transfer").
Proof.
  intros HU HA Hle. apply (calculate_heat_transfer_no_transfer _ _ _ _ _ _ _ U A HU HA).
  unfold delta_T.
  destruct (py_max_0 (T_hot_in - T_cold_in - approach_temp g)) as [[_ H]|[H _]]; lra.
Qed.

Lemma heat_transfer_no_transfer_boundary_witness :
  V2.U_values !! "cooler_oil" = Some 400 /\
  V2.heat_exchange_areas !! "cooler_oil" = Some 3.0 /\
  10.25 - 10 <= approach_temp V2.globals /\
  calculate_heat_transfer V2.globals 10.25 10 (880000 # 3) 2093000
    (Some 60e3) "cooler_oil"
  = Ok (0, 10.25, 10, "no transfer").
Proof.
  assert (HU : U_values (design V2.globals) !! "cooler_oil" = Some 400)
    by reflexivity.
  assert (HA : heat_exchange_areas (design V2.globals) !! "cooler_oil" = Some 3.0)
    by reflexivity.
  assert (Hle : 10.25 - 10 <= approach_temp V2.globals)
    by (vm_compute; discriminate).
  split; [exact HU|]. split; [exact HA|]. split; [exact Hle|].
  exact (heat_transfer_no_transfer_boundary V2.globals 10.25 10 (880000 # 3) 2093000
           (Some 60e3) "cooler_oil" 400 3.0 HU HA Hle).
Defined.

(** C1.  When the driving force is positive, the returned duty is the
    minimum of the area-limited, hot-flow-limited and cold-flow-limited
    candidates and, when supplied, the device cap; the reason names the
    winner in the precedence area, hot flow, cold flow, device, a later
    candidate winning only when strictly smaller.  In particular
    500/500/300 without a cap gives "cold flow", and a cap strictly below
    the three candidates gives the cap with reason "device". *)
Theorem heat_transfer_duty_is_min_with_precedence
    (g : Globals) (T_hot_in T_cold_in thermal_mass_hot thermal_mass_cold : float)
    (max_duty : option float) (Exchanger_name : string)
    (Q_lim T_hot_out T_cold_out : float) (reason : string) :
  calculate_heat_transfer g T_hot_in T_cold_in thermal_mass_hot thermal_mass_cold
    max_duty Exchanger_name = Ok (Q_lim, T_hot_out, T_cold_out, reason) ->
  0 < delta_T g T_hot_in T_cold_in ->
  exists U A,
    U_values (design g) !! Exchanger_name = Some U /\
    heat_exchange_areas (design g) !! Exchanger_name = Some A /\
    let Q_area := U * A * delta_T g T_hot_in T_cold_in in
    let Q_flow_hot := thermal_mass_hot * delta_T g T_hot_in T_cold_in / dtQ g in
    let Q_flow_cold := thermal_mass_cold * delta_T g T_hot_in T_cold_in / dtQ g in
    Q_lim == candidates_min Q_area Q_flow_hot Q_flow_cold max_duty /\
    reason = reason_by_precedence Q_area Q_flow_hot Q_flow_cold max_duty /\
    (max_duty = None -> Q_area == 500 -> Q_flow_hot == 500 -> Q_flow_cold == 300 ->
     reason = "cold flow") /\
    (forall cap, max_duty = Some cap ->
       cap < Q_area -> cap < Q_flow_hot -> cap < Q_flow_cold ->
       Q_lim == cap /\ reason = "device").
Proof.
  intros Hcall HdT.
  apply calculate_heat_transfer_inv in Hcall as (U & A & HU & HA & [[Hle _]|H]).
  { lra. }
  destruct H as (_ & _ & _ & _ & Hlim & _).
  exists U, A. split; [exact HU|]. split; [exact HA|]. cbv zeta.
  set (Qa := U * A * delta_T g T_hot_in T_cold_in) in *.
  set (Qh := thermal_mass_hot * delta_T g T_hot_in T_cold_in / dtQ g) in *.
  set (Qc := thermal_mass_cold * delta_T g T_hot_in T_cold_in / dtQ g) in *.
  assert (HQ : Q_lim = (limiting Qa Qh Qc max_duty).1) by (rewrite <- Hlim; reflexivity).
  assert (Hr : reason = (limiting Qa Qh Qc max_duty).2) by (rewrite <- Hlim; reflexivity).
  rewrite limiting_reason in Hr.
  assert (HQ' : Q_lim == candidates_min Qa Qh Qc max_duty)
    by (rewrite HQ; apply limiting_min).
  split; [exact HQ'|]. split; [exact Hr|]. split.
  - intros -> Ea Eh Ec. rewrite Hr. unfold reason_by_precedence.
    split_comparisons; try reflexivity; exfalso; lra.
  - intros cap -> Ha Hh Hc. split.
    + rewrite HQ'. unfold candidates_min. split_comparisons; lra.
    + rewrite Hr. unfold reason_by_precedence.
      split_comparisons; try reflexivity; exfalso; lra.
Qed.

Lemma heat_transfer_duty_is_min_with_precedence_witness :
  exists Q_lim T_hot_out T_cold_out reason,
    calculate_heat_transfer V2.globals 1 0 60000 36000 None "heater_oil"
    = Ok (Q_lim, T_hot_out, T_cold_out, reason) /\
    0 < delta_T V2.globals 1 0 /\
    Q_lim == 300 /\ reason = "cold flow".
Proof.
  eexists _, _, _, _.
  assert (Hcall : calculate_heat_transfer V2.globals 1 0 60000 36000 None "heater_oil"
                  = Ok (180000 # 600, 25200000 # 36000000, 10800000 # 21600000,
                        "cold flow")) by (vm_compute; reflexivity).
  assert (HdT : 0 < delta_T V2.globals 1 0) by (vm_compute; reflexivity).
  split; [exact Hcall|]. split; [exact HdT|].
  destruct (heat_transfer_duty_is_min_with_precedence _ _ _ _ _ _ _ _ _ _ _ Hcall HdT)
    as (U & A & HU & HA & _ & _ & Hcold & _).
  split; [vm_compute; reflexivity|].
  assert (U = 200) as -> by (vm_compute in HU; congruence).
  assert (A = 5.0) as -> by (vm_compute in HA; congruence).
  apply Hcold; vm_compute; reflexivity.
Defined.

(** C3, as stated, fails: with the hot-flow candidate equal to the area
    candidate (both 500, the cold-flow candidate 600, no cap) the reason is
    "area", the earlier-checked one, not "hot flow". *)
Lemma heat_transfer_tie_not_later_reason :
  ~ (forall (T_hot_in T_cold_in thermal_mass_hot thermal_mass_cold : float)
            (Exchanger_name : string) (U A Q_lim T_hot_out T_cold_out : float)
            (reason : string),
        calculate_heat_transfer V2.globals T_hot_in T_cold_in
          thermal_mass_hot thermal_mass_cold None Exchanger_name
        = Ok (Q_lim, T_hot_out, T_cold_out, reason) ->
        U_values (design V2.globals) !! Exchanger_name = Some U ->
        heat_exchange_areas (design V2.globals) !! Exchanger_name = Some A ->
        0 < delta_T V2.globals T_hot_in T_cold_in ->
        thermal_mass_hot * delta_T V2.globals T_hot_in T_cold_in / dtQ V2.globals
        == U * A * delta_T V2.globals T_hot_in T_cold_in ->
        U * A * delta_T V2.globals T_hot_in T_cold_in
        <= thermal_mass_cold * delta_T V2.globals T_hot_in T_cold_in / dtQ V2.globals ->
        reason = "hot flow").
Proof.
  intros H.
  specialize (H 1 0 60000 72000 "heater_oil" 200 5.0
                (50000 # 100) (3000000 # 6000000) (3000000 # 7200000) "area").
  assert (Hr : "area" = "hot flow"); [|discriminate Hr].
  apply H; vm_compute; try reflexivity; discriminate.
Qed.

(** C3, amended.  When two consecutively checked candidates tie for the
    minimum, the reason is the earlier-checked one: area over hot flow, hot
    flow over cold flow, cold flow over device. *)
Theorem heat_transfer_tie_keeps_earlier_reason
    (g : Globals) (T_hot_in T_cold_in thermal_mass_hot thermal_mass_cold : float)
    (max_duty : option float) (Exchanger_name : string)
    (U A Q_lim T_hot_out T_cold_out : float) (reason : string) :
  calculate_heat_transfer g T_hot_in T_cold_in thermal_mass_hot thermal_mass_cold
    max_duty Exchanger_name = Ok (Q_lim, T_hot_out, T_cold_out, reason) ->
  U_values (design g) !! Exchanger_name = Some U ->
  heat_exchange_areas (design g) !! Exchanger_name = Some A ->
  0 < delta_T g T_hot_in T_cold_in ->
  let Q_area := U * A * delta_T g T_hot_in T_cold_in in
  let Q_flow_hot := thermal_mass_hot * delta_T g T_hot_in T_cold_in / dtQ g in
  let Q_flow_cold := thermal_mass_cold * delta_T g T_hot_in T_cold_in / dtQ g in
  (Q_flow_hot == Q_area -> Q_lim == Q_area -> reason = "area") /\
  (Q_flow_cold == Q_flow_hot -> Q_flow_hot < Q_area -> Q_lim == Q_flow_hot ->
   reason = "hot flow") /\
  (forall cap, max_duty = Some cap ->
     cap == Q_flow_cold -> Q_flow_cold < Q_flow_hot -> Q_flow_cold < Q_area ->
     reason = "cold flow").
Proof.
  intros Hcall HU HA HdT.
  apply calculate_heat_transfer_inv in Hcall as (U' & A' & HU' & HA' & [[Hle _]|H]).
  { lra. }
  rewrite HU in HU'. rewrite HA in HA'. injection HU' as <-. injection HA' as <-.
  destruct H as (_ & _ & _ & _ & Hlim & _). cbv zeta.
  set (Qa := U * A * delta_T g T_hot_in T_cold_in) in *.
  set (Qh := thermal_mass_hot * delta_T g T_hot_in T_cold_in / dtQ g) in *.
  set (Qc := thermal_mass_cold * delta_T g T_hot_in T_cold_in / dtQ g) in *.
  assert (HQ : Q_lim == candidates_min Qa Qh Qc max_duty).
  { rewrite <- limiting_min, <- Hlim. reflexivity. }
  assert (Hr : reason = reason_by_precedence Qa Qh Qc max_duty).
  { rewrite <- limiting_reason, <- Hlim. reflexivity. }
  clear Hlim. rewrite Hr. unfold reason_by_precedence, candidates_min in *.
  split; [|split].
  - intros E1 E2. destruct max_duty as [cap|];
      split_comparisons; try reflexivity; exfalso; lra.
  - intros E1 E2 E3. destruct max_duty as [cap|];
      split_comparisons; try reflexivity; exfalso; lra.
  - intros cap -> E1 E2 E3.
    split_comparisons; try reflexivity; exfalso; lra.
Qed.

Lemma heat_transfer_tie_keeps_earlier_reason_witness :
  exists Q_lim T_hot_out T_cold_out reason,
    calculate_heat_transfer V2.globals 1 0 60000 72000 None "heater_oil"
    = Ok (Q_lim, T_hot_out, T_cold_out, reason) /\
    60000 * delta_T V2.globals 1 0 / dtQ V2.globals
    == 200 * 5.0 * delta_T V2.globals 1 0 /\
    Q_lim == 200 * 5.0 * delta_T V2.globals 1 0 /\
    reason = "area".
Proof.
  eexists _, _, _, _.
  assert (Hcall : calculate_heat_transfer V2.globals 1 0 60000 72000 None "heater_oil"
                  = Ok (50000 # 100, 3000000 # 6000000, 3000000 # 7200000, "area"))
    by (vm_compute; reflexivity).
  assert (HU : U_values (design V2.globals) !! "heater_oil" = Some 200) by reflexivity.
  assert (HA : heat_exchange_areas (design V2.globals) !! "heater_oil" = Some 5.0)
    by reflexivity.
  assert (HdT : 0 < delta_T V2.globals 1 0) by (vm_compute; reflexivity).
  assert (Htie : 60000 * delta_T V2.globals 1 0 / dtQ V2.globals
                 == 200 * 5.0 * delta_T V2.globals 1 0) by (vm_compute; reflexivity).
  assert (Hmin : 50000 # 100 == 200 * 5.0 * delta_T V2.globals 1 0)
    by (vm_compute; reflexivity).
  split; [exact Hcall|]. split; [exact Htie|]. split; [exact Hmin|].
  exact (proj1 (heat_transfer_tie_keeps_earlier_reason _ _ _ _ _ _ _ _ _ _ _ _ _
                  Hcall HU HA HdT) Htie Hmin).
Defined.

(** Over the rationals every returned call conserves energy exactly,
    [Q dt = cap_hot (hot_in - hot_out) = cap_cold (cold_out - cold_in)],
    and when transfer occurs the outlets are
    [hot_in - Q dt / cap_hot] and [cold_in + Q dt / cap_cold], with or
    without a device cap.  Rounding does not preserve the equalities
    ([energy_balance_inexact_in_doubles]): what the doubles lose is
    exactly the rounding of the two quotients. *)
Lemma calculate_heat_transfer_energy_exact
    (g : Globals) (T_hot_in T_cold_in thermal_mass_hot thermal_mass_cold : float)
    (max_duty : option float) (Exchanger_name : string)
    (Q_lim T_hot_out T_cold_out : float) (reason : string) :
  calculate_heat_transfer g T_hot_in T_cold_in thermal_mass_hot thermal_mass_cold
    max_duty Exchanger_name = Ok (Q_lim, T_hot_out, T_cold_out, reason) ->
  (Q_lim * dtQ g == thermal_mass_hot * (T_hot_in - T_hot_out) /\
   Q_lim * dtQ g == thermal_mass_cold * (T_cold_out - T_cold_in)) /\
  (0 < delta_T g T_hot_in T_cold_in ->
   ~ thermal_mass_hot == 0 /\ ~ thermal_mass_cold == 0 /\
   T_hot_out = T_hot_in - Q_lim * dtQ g / thermal_mass_hot /\
   T_cold_out = T_cold_in + Q_lim * dtQ g / thermal_mass_cold).
Proof.
  intros Hcall.
  apply calculate_heat_transfer_inv in Hcall as (U & A & _ & _ & [[Hle Heq]|H]).
  - injection Heq as -> -> -> ->. split; [split; ring|]. intros HdT. lra.
  - destruct H as (_ & _ & Hmh & Hmc & _ & -> & ->). split.
    + split; field; assumption.
    + intros _. auto.
Qed.

(** C7.  With positive capacitances, a non-negative device cap when one is
    supplied, and the configuration invariants [dt > 0] and [U, A > 0] for
    the exchanger, the returned duty is non-negative, the hot side does not
    warm and the cold side does not cool. *)
Theorem heat_transfer_never_cold_to_hot
    (g : Globals) (T_hot_in T_cold_in thermal_mass_hot thermal_mass_cold : float)
    (max_duty : option float) (Exchanger_name : string)
    (Q_lim T_hot_out T_cold_out : float) (reason : string) :
  (0 < dt g)%Z ->
  (forall U A,
     U_values (design g) !! Exchanger_name = Some U ->
     heat_exchange_areas (design g) !! Exchanger_name = Some A ->
     0 < U /\ 0 < A) ->
  0 < thermal_mass_hot -> 0 < thermal_mass_cold ->
  (forall cap, max_duty = Some cap -> 0 <= cap) ->
  calculate_heat_transfer g T_hot_in T_cold_in thermal_mass_hot thermal_mass_cold
    max_duty Exchanger_name = Ok (Q_lim, T_hot_out, T_cold_out, reason) ->
  0 <= Q_lim /\ T_hot_out <= T_hot_in /\ T_cold_in <= T_cold_out.
Proof.
  intros Hdt HUA Hmh Hmc Hcap Hcall. apply dtQ_pos in Hdt.
  apply calculate_heat_transfer_inv in Hcall as (U & A & HU & HA & [[Hle Heq]|H]).
  - injection Heq as -> -> -> ->. lra.
  - destruct (HUA U A HU HA) as [HUpos HApos].
    destruct H as (HdT & _ & _ & _ & Hlim & -> & ->).
    assert (HQ : 0 <= Q_lim).
    { replace Q_lim with
        (limiting (U * A * delta_T g T_hot_in T_cold_in)
           (thermal_mass_hot * delta_T g T_hot_in T_cold_in / dtQ g)
           (thermal_mass_cold * delta_T g T_hot_in T_cold_in / dtQ g) max_duty).1
        by (rewrite <- Hlim; reflexivity).
      apply limiting_nonneg; [ | | | exact Hcap].
      - apply Qmult_le_0_compat; [apply Qmult_le_0_compat|]; lra.
      - apply Qdiv_nonneg; [apply Qmult_le_0_compat; lra | exact Hdt].
      - apply Qdiv_nonneg; [apply Qmult_le_0_compat; lra | exact Hdt]. }
    assert (Hh : 0 <= Q_lim * dtQ g / thermal_mass_hot)
      by (apply Qdiv_nonneg; [apply Qmult_le_0_compat; lra | exact Hmh]).
    assert (Hc : 0 <= Q_lim * dtQ g / thermal_mass_cold)
      by (apply Qdiv_nonneg; [apply Qmult_le_0_compat; lra | exact Hmc]).
    lra.
Qed.

Lemma heat_transfer_never_cold_to_hot_witness :
  exists Q_lim T_hot_out T_cold_out reason,
    calculate_heat_transfer V2.globals 1 0 60000 72000 (Some 100) "heater_oil"
    = Ok (Q_lim, T_hot_out, T_cold_out, reason) /\
    0 <= Q_lim /\ T_hot_out <= 1 /\ 0 <= T_cold_out.
Proof.
  eexists _, _, _, _.
  assert (Hcall : calculate_heat_transfer V2.globals 1 0 60000 72000 (Some 100)
                    "heater_oil"
                  = Ok (100, 54000 # 60000, 6000 # 72000, "device"))
    by (vm_compute; reflexivity).
  split; [exact Hcall|].
  apply (heat_transfer_never_cold_to_hot V2.globals 1 0 60000 72000 (Some 100)
           "heater_oil" 100 (54000 # 60000) (6000 # 72000) "device").
  - reflexivity.
  - intros U A HU HA. vm_compute in HU, HA.
    injection HU as <-. injection HA as <-. split; reflexivity.
  - reflexivity.
  - reflexivity.
  - intros cap [= <-]. discriminate.
  - exact Hcall.
Defined.




(** ** Claims about the insulation loss *)

Lemma calculate_insulation_loss_inv (g : Globals) (component_name : string)
    (T_current Q_loss T_updated : float) :
  calculate_insulation_loss g component_name T_current = Ok (Q_loss, T_updated) ->
  exists U A,
    U_values (design g) !! (component_name ++ "_outside")%string = Some U /\
    heat_exchange_areas (design g) !! (component_name ++ "_outside")%string = Some A /\
    Q_loss = U * A * (T_current - ambient_temp (design g)) /\
    ((component_name = "pipe" /\
      exists cp_oil, cp g !! "oil" = Some cp_oil /\ ~ m_dot_oil g * cp_oil == 0 /\
        T_updated = T_current - Q_loss / (m_dot_oil g * cp_oil))
     \/
     (component_name <> "pipe" /\
      exists Tmass, thermal_mass g !! component_name = Some Tmass /\ ~ Tmass == 0 /\
        T_updated = T_current - Q_loss * dtQ g / Tmass)).
Proof.
  unfold calculate_insulation_loss. intros H.
  apply bind_Ok in H as (U & HU & H). apply bind_Ok in H as (A & HA & H).
  apply getitem_Ok in HU, HA. exists U, A. split; [exact HU|]. split; [exact HA|].
  destruct (String.eqb_spec component_name "pipe") as [Hname|Hname].
  - apply bind_Ok in H as (c & Hc & H). apply bind_Ok in H as (d & Hd & H).
    apply getitem_Ok in Hc. apply py_div_Ok in Hd as [Hnz ->].
    injection H as <- <-. split; [reflexivity|]. left. split; [exact Hname|].
    exists c. auto.
  - apply bind_Ok in H as (m & Hm & H). apply bind_Ok in H as (d & Hd & H).
    apply getitem_Ok in Hm. apply py_div_Ok in Hd as [Hnz ->].
    injection H as <- <-. split; [reflexivity|]. right. split; [exact Hname|].
    exists m. auto.
Qed.




(** ** Claims about the heater setpoint *)

Lemma py_min_Qmin (a b : float) : py_min a b = Qmin a b.
Proof. rewrite Qmin_ltb. reflexivity. Qed.

(** C6.  While the status is heating or reaction, the hot inlet handed to
    the heater exchange is
    [min(oil_max_temp, T_oil + K_p ((reactor_max_temp + 5) - T_reactor))],
    which never exceeds the configured oil maximum. *)
Theorem heater_exit_target_clamped
    (g : Globals) (status : string) (T_oil T_reactor : float) :
  status = "heating" \/ status = "reaction" ->
  T_heater_exit g T_oil T_reactor
  = Qmin (oil_max_temp (design g))
         (T_oil + K_p g * ((reactor_max_temp (design g) + 5) - T_reactor)) /\
  T_heater_exit g T_oil T_reactor <= oil_max_temp (design g) /\
  heater_cooler g status T_oil T_reactor
  = (flow_hot ← getitem (thermal_mass g) "flow";
     flow_cold ← getitem (thermal_mass g) "flow";
     '(Q_heater, _, T_oil', reason) ←
       calculate_heat_transfer g (T_heater_exit g T_oil T_reactor) T_oil
         flow_hot flow_cold (Some (heater_max_duty (design g))) "heater_oil";
     Ok (Q_heater, 0, T_oil', reason, "no transfer")).
Proof.
  intros Hstatus. split; [|split].
  - unfold T_heater_exit. apply py_min_Qmin.
  - unfold T_heater_exit. rewrite py_min_Qmin. apply Q.le_min_l.
  - unfold heater_cooler. destruct Hstatus as [-> | ->]; reflexivity.
Qed.

Lemma heater_exit_target_clamped_witness :
  T_heater_exit V2.globals 25 25 == 200 /\
  T_heater_exit V2.globals 25 25 <= oil_max_temp (design V2.globals).
Proof.
  split; [vm_compute; reflexivity|].
  exact (proj1 (proj2 (heater_exit_target_clamped V2.globals "heating" 25 25
                         (or_introl eq_refl)))).
Defined.

(** ** The process state machine *)

Lemma update_status_inv (g : Globals) (t : Z) (T_reactor : float)
    (status : string) (rst : option Z) (status' : string) (rst' : option Z) :
  update_status g t T_reactor status rst = Ok (status', rst') ->
  (status = "heating" /\ reactor_max_temp (design g) <= T_reactor /\ rst' = Some t /\
   ((status' = "reaction" /\ (t - t < reaction_time (design g))%Z) \/
    (status' = "cooling" /\ (reaction_time (design g) <= t - t)%Z)))
  \/ (status = "heating" /\ T_reactor < reactor_max_temp (design g) /\
      status' = "heating" /\ rst' = rst)
  \/ (status = "reaction" /\ rst' = rst /\
      exists t0, rst = Some t0 /\
        ((status' = "reaction" /\ (t - t0 < reaction_time (design g))%Z) \/
         (status' = "cooling" /\ (reaction_time (design g) <= t - t0)%Z)))
  \/ (status <> "heating" /\ status <> "reaction" /\ status' = status /\ rst' = rst).
Proof.
  unfold update_status. intros H.
  destruct (String.eqb_spec status "heating") as [-> | Hh]; simpl in H.
  - destruct (Qle_bool (reactor_max_temp (design g)) T_reactor) eqn:Hle; simpl in H.
    + apply Qle_bool_iff in Hle. left. split; [reflexivity|]. split; [exact Hle|].
      destruct (Z.leb_spec (reaction_time (design g)) (t - t)) as [Hrt | Hrt];
        injection H as <- <-; split; auto.
    + apply Qle_bool_gt in Hle. right. left. injection H as <- <-. auto.
  - destruct (String.eqb_spec status "reaction") as [-> | Hr].
    + right. right. left. split; [reflexivity|].
      destruct rst as [t0|]; [|discriminate].
      destruct (Z.leb_spec (reaction_time (design g)) (t - t0)) as [Hrt | Hrt];
        injection H as <- <-; split; eauto 6.
    + right. right. right. injection H as <- <-. auto.
Qed.

(** The status part of an iteration is [update_status]. *)
Lemma loop_body_status (g : Globals) (t : Z) (st st' : State)
    (results results' : gmap string (list value)) :
  loop_body g t st results = Ok (st', results') ->
  update_status g t (T_reactor st) (status st) (reaction_start_time st)
  = Ok (status st', reaction_start_time st').
Proof.
  unfold loop_body. destruct st as [To Tj Tr s rst]. intros H. simpl.
  repeat (apply bind_Ok in H as (? & ? & H);
          repeat match goal with x : (_ * _)%type |- _ => destruct x end).
  injection H as <- <-. simpl. assumption.
Qed.

Lemma status_le_rank (s s' : string) (i j : nat) :
  status_rank s = Some i -> status_rank s' = Some j -> (i <= j)%nat -> status_le s s'.
Proof. intros Hi Hj Hle. exists i, j. auto. Qed.

Lemma update_status_legal (g : Globals) (t : Z) (s s' : State) :
  state_inv s ->
  update_status g t (T_reactor s) (status s) (reaction_start_time s)
  = Ok (status s', reaction_start_time s') ->
  legal_step g t s s'.
Proof.
  intros Hinv H. apply update_status_inv in H.
  destruct s as [To Tj Tr st rst], s' as [To' Tj' Tr' st' rst'].
  unfold legal_step, state_inv in *. simpl in *.
  assert (R01 : status_le "heating" "reaction")
    by (apply (status_le_rank _ _ 0 1); [reflexivity | reflexivity | lia]).
  assert (R02 : status_le "heating" "cooling")
    by (apply (status_le_rank _ _ 0 2); [reflexivity | reflexivity | lia]).
  assert (R00 : status_le "heating" "heating")
    by (apply (status_le_rank _ _ 0 0); [reflexivity | reflexivity | lia]).
  assert (R11 : status_le "reaction" "reaction")
    by (apply (status_le_rank _ _ 1 1); [reflexivity | reflexivity | lia]).
  assert (R12 : status_le "reaction" "cooling")
    by (apply (status_le_rank _ _ 1 2); [reflexivity | reflexivity | lia]).
  assert (R22 : status_le "cooling" "cooling")
    by (apply (status_le_rank _ _ 2 2); [reflexivity | reflexivity | lia]).
  destruct H as [(-> & Hle & -> & Hs') | [(-> & Hlt & -> & ->)
               | [(-> & -> & t0 & -> & Hs') | (Hn1 & Hn2 & -> & ->)]]].
  - destruct Hs' as [[-> Hrt] | [-> Hrt]].
    + split; [exact R01|]. split; [auto|]. split; [discriminate|].
      split; [discriminate|]. split; [intros Hn; exfalso; apply Hn; split; [reflexivity | discriminate]|].
      right. eauto.
    + split; [exact R02|]. split; [auto|]. split; [eauto|].
      split; [reflexivity|]. split; [intros Hn; exfalso; apply Hn; split; [reflexivity | discriminate]|].
      right. eauto.
  - destruct Hinv as [[_ ->] | [[Hc | Hc] _]]; try discriminate.
    split; [exact R00|]. split; [congruence|]. split; [discriminate|].
    split; [discriminate|]. split; [reflexivity|]. left. auto.
  - destruct Hs' as [[-> Hrt] | [-> Hrt]].
    + split; [exact R11|]. split; [discriminate|]. split; [discriminate|].
      split; [discriminate|]. split; [reflexivity|]. right. eauto.
    + split; [exact R12|]. split; [discriminate|]. split; [eauto|].
      split; [reflexivity|]. split; [reflexivity|]. right. eauto.
  - destruct Hinv as [[Hc _] | [[Hc | Hc] [t0 ->]]]; try congruence. subst.
    split; [exact R22|]. split; [discriminate|]. split; [congruence|].
    split; [reflexivity|]. split; [reflexivity|]. right. eauto.
Qed.

(** Every iteration of a run that starts in a state satisfying
    [state_inv] is a [legal_step]. *)
Lemma run_states_legal (g : Globals) (ts : list Z) :
  forall (st : State) (results : gmap string (list value)) (trace : list State),
    state_inv st ->
    run_states g ts st results = Ok trace ->
    steps_legal g ts st trace.
Proof.
  induction ts as [|t ts IH]; intros st results trace Hinv H; simpl in H.
  - injection H as <-. exact I.
  - apply bind_Ok in H as ([st' results'] & Hbody & H).
    apply bind_Ok in H as (rest & Hrest & H). injection H as <-.
    apply loop_body_status in Hbody. apply update_status_legal in Hbody; [|exact Hinv].
    simpl. split; [exact Hbody|].
    apply (IH st' results' rest); [|exact Hrest].
    destruct Hbody as (_ & _ & _ & _ & _ & Hinv'). exact Hinv'.
Qed.

(** C4.  From the initial status heating, the statuses at the end of the
    iterations never decrease in the order heating, reaction, cooling;
    heating is left only on an iteration that finds the reactor at or above
    the configured maximum, cooling is entered only once the hold duration
    has elapsed since [reaction_start_time], cooling is never left, and
    [reaction_start_time] is assigned on the iteration that leaves heating
    (to that iteration's time) and on no other. *)
Theorem status_sequence_monotone
    (g : Globals) (ts : list Z) (st : State)
    (results : gmap string (list value)) (trace : list State) :
  status st = "heating" ->
  reaction_start_time st = None ->
  run_states g ts st results = Ok trace ->
  steps_legal g ts st trace.
Proof.
  intros Hs Hr. apply run_states_legal. left. split; [exact Hs | exact Hr].
Qed.

Lemma status_sequence_monotone_witness :
  exists trace,
    run_states V2.globals [0%Z] (Build_State 25 25 180 "heating" None) initial_results
    = Ok trace /\
    map status trace = ["reaction"] /\
    steps_legal V2.globals [0%Z] (Build_State 25 25 180 "heating" None) trace.
Proof.
  destruct (run_states V2.globals [0%Z] (Build_State 25 25 180 "heating" None)
              initial_results) as [trace|e] eqn:E.
  - exists trace. split; [reflexivity|]. split.
    + pose proof E as E'. vm_compute in E'. injection E' as <-. reflexivity.
    + exact (status_sequence_monotone V2.globals [0%Z]
               (Build_State 25 25 180 "heating" None) initial_results trace
               eq_refl eq_refl E).
  - vm_compute in E. discriminate E.
Defined.

(** The observed states are those the loop itself goes through. *)
Lemma run_loop_states (g : Globals) (ts : list Z) :
  forall (st : State) (results : gmap string (list value))
         (st' : State) (results' : gmap string (list value)),
    run_loop g ts st results = Ok (st', results') ->
    exists trace, run_states g ts st results = Ok trace /\
                  length trace = length ts /\
                  last (st :: trace) = Some st'.
Proof.
  induction ts as [|t ts IH]; intros st results st' results' H; simpl in H.
  - injection H as <- <-. exists []. auto.
  - apply bind_Ok in H as ([st1 results1] & Hbody & H).
    destruct (IH _ _ _ _ H) as (trace & Htrace & Hlen & Hlast).
    exists (st1 :: trace). simpl. rewrite Hbody. simpl. rewrite Htrace. simpl.
    split; [reflexivity|]. split; [congruence|].
    rewrite last_cons. simpl in Hlast. rewrite last_cons in Hlast.
    destruct (last trace); assumption.
Qed.

(** ** The driver runs to completion *)

Lemma has_key_Some {V : Type} (d : gmap string V) (k : string) :
  has_key d k = true -> exists v, d !! k = Some v.
Proof. unfold has_key. destruct (d !! k); [eauto | discriminate]. Qed.

Lemma has_positive_Some (d : gmap string float) (k : string) :
  has_positive d k = true -> exists v, d !! k = Some v /\ 0 < v.
Proof.
  unfold has_positive. destruct (d !! k) as [v|]; [|discriminate].
  intros H. apply Qltb_lt in H. eauto.
Qed.

Lemma calculate_heat_transfer_total
    (g : Globals) (T_hot_in T_cold_in thermal_mass_hot thermal_mass_cold : float)
    (max_duty : option float) (Exchanger_name : string) :
  (0 < dt g)%Z ->
  has_key (U_values (design g)) Exchanger_name = true ->
  has_key (heat_exchange_areas (design g)) Exchanger_name = true ->
  0 < thermal_mass_hot -> 0 < thermal_mass_cold ->
  exists r,
    calculate_heat_transfer g T_hot_in T_cold_in thermal_mass_hot thermal_mass_cold
      max_duty Exchanger_name = Ok r.
Proof.
  intros Hdt HU HA Hmh Hmc. apply dtQ_pos in Hdt.
  apply has_key_Some in HU as [U HU]. apply has_key_Some in HA as [A HA].
  destruct (Qlt_le_dec 0 (delta_T g T_hot_in T_cold_in)) as [Hpos | Hle].
  - destruct (calculate_heat_transfer_transfer g T_hot_in T_cold_in
                thermal_mass_hot thermal_mass_cold max_duty Exchanger_name U A HU HA Hpos)
      as (Q_lim & reason & _ & E); try lra.
    rewrite E. eauto.
  - rewrite (calculate_heat_transfer_no_transfer g T_hot_in T_cold_in
               thermal_mass_hot thermal_mass_cold max_duty Exchanger_name U A HU HA Hle).
    eauto.
Qed.

Lemma py_div_total (x y : float) : ~ y == 0 -> py_div x y = Ok (x / y).
Proof. intros H. apply py_div_Ok. auto. Qed.

Lemma calculate_insulation_loss_total (g : Globals) (component_name : string)
    (T_current : float) :
  (0 < dt g)%Z ->
  has_key (U_values (design g)) (component_name ++ "_outside")%string = true ->
  has_key (heat_exchange_areas (design g)) (component_name ++ "_outside")%string = true ->
  has_positive (cp g) "oil" = true ->
  0 < m_dot_oil g ->
  (component_name <> "pipe" -> has_positive (thermal_mass g) component_name = true) ->
  exists r, calculate_insulation_loss g component_name T_current = Ok r.
Proof.
  intros Hdt HU HA Hcp Hm Hmass. apply dtQ_pos in Hdt.
  apply has_key_Some in HU as [U HU]. apply has_key_Some in HA as [A HA].
  apply has_positive_Some in Hcp as (c & Hc & Hcpos).
  unfold calculate_insulation_loss.
  apply getitem_Ok in HU, HA, Hc. rewrite HU, HA. simpl.
  destruct (String.eqb_spec component_name "pipe") as [Hname | Hname].
  - rewrite Hc. simpl. rewrite py_div_total; [simpl; eauto|].
    assert (0 < m_dot_oil g * c) by nra. lra.
  - apply Hmass in Hname. apply has_positive_Some in Hname as (m & Hmk & Hmpos).
    apply getitem_Ok in Hmk. rewrite Hmk. simpl.
    rewrite py_div_total; [simpl; eauto | lra].
Qed.

Lemma update_status_total (g : Globals) (t : Z) (s : State) :
  state_inv s ->
  exists r, update_status g t (T_reactor s) (status s) (reaction_start_time s) = Ok r.
Proof.
  intros Hinv. unfold update_status.
  destruct Hinv as [[-> ->] | [Hs [t0 ->]]].
  - simpl. destruct (Qle_bool _ _); simpl; [|eauto].
    destruct (_ <=? _)%Z; eauto.
  - replace (String.eqb (status s) "heating") with false
      by (destruct Hs as [-> | ->]; reflexivity).
    simpl. destruct (String.eqb (status s) "reaction"); [|eauto].
    destruct (_ <=? _)%Z; eauto.
Qed.

(** What [config_ok] provides. *)
Lemma config_ok_spec (g : Globals) :
  config_ok g = true ->
  (0 < dt g)%Z /\
  Forall (fun k => has_key (U_values (design g)) k = true) exchanger_keys /\
  Forall (fun k => has_key (heat_exchange_areas (design g)) k = true) exchanger_keys /\
  Forall (fun k => has_positive (thermal_mass g) k = true)
         ["flow"; "cooling"; "jacket"; "reactor"] /\
  has_positive (cp g) "oil" = true /\
  0 < m_dot_oil g.
Proof.
  unfold config_ok. rewrite !andb_true_iff, !forallb_forall, Z.ltb_lt, Qltb_lt.
  intros (((((H1 & H2) & H3) & H4) & H5) & H6).
  rewrite !Forall_forall. setoid_rewrite list_elem_of_In. auto 10.
Qed.

(** ** The results table *)

Lemma append_lookup (results results' : gmap string (list value))
    (k : string) (v : value) :
  append results k v = Ok results' ->
  exists col, results !! k = Some col /\
    results' = <[k := (col ++ [v])%list]> results.
Proof.
  unfold append. intros H. apply bind_Ok in H as (col & Hcol & H).
  apply getitem_Ok in Hcol. injection H as <-. eauto.
Qed.

(** Logging a row whose keys are distinct touches each of its columns
    once and no other column. *)
Lemma log_lookup (row : list (string * value)) :
  forall results results' : gmap string (list value),
    NoDup (map fst row) ->
    log row results = Ok results' ->
    forall k,
      (k ∉ map fst row -> results' !! k = results !! k) /\
      (k ∈ map fst row ->
       exists col v, (k, v) ∈ row /\ results !! k = Some col /\
                     results' !! k = Some (col ++ [v])%list).
Proof.
  induction row as [|[k0 v0] row IH]; intros results results' Hnd H k; simpl in *.
  - injection H as <-. split; [reflexivity|]. intros Hin. inversion Hin.
  - apply NoDup_cons in Hnd as [Hk0 Hnd].
    apply bind_Ok in H as (results1 & Happ & H).
    apply append_lookup in Happ as (col0 & Hcol0 & ->).
    destruct (IH _ _ Hnd H k) as [IHout IHin]. split.
    + intros Hnot. apply not_elem_of_cons in Hnot as [Hne Hnot].
      rewrite (IHout Hnot). apply lookup_insert_ne. congruence.
    + intros Hin. apply elem_of_cons in Hin as [-> | Hin].
      * exists col0, v0. split; [left|]. split; [exact Hcol0|].
        destruct (IH _ _ Hnd H k0) as [IHout0 _].
        rewrite (IHout0 Hk0). apply lookup_insert_eq.
      * destruct (IHin Hin) as (col & v & Hv & Hcol & Hres).
        assert (Hne : k0 <> k) by (intros ->; contradiction).
        rewrite lookup_insert_ne in Hcol by exact Hne.
        exists col, v. split; [right; exact Hv|]. auto.
Qed.

Lemma log_total (row : list (string * value)) :
  forall results : gmap string (list value),
    (forall k, k ∈ map fst row -> is_Some (results !! k)) ->
    exists results', log row results = Ok results'.
Proof.
  induction row as [|[k0 v0] row IH]; intros results Hkeys; simpl.
  - eauto.
  - destruct (Hkeys k0) as [col Hcol]; [left|].
    unfold append. apply getitem_Ok in Hcol. rewrite Hcol. simpl.
    apply IH. intros k Hk.
    destruct (decide (k0 = k)) as [-> | Hne].
    + rewrite lookup_insert_eq. eauto.
    + rewrite lookup_insert_ne by exact Hne. apply Hkeys. right. exact Hk.
Qed.

Lemma log_cols (row : list (string * value)) (n : nat)
    (results results' : gmap string (list value)) :
  NoDup (map fst row) ->
  cols_inv (map fst row) n results ->
  log row results = Ok results' ->
  cols_inv (map fst row) (S n) results'.
Proof.
  intros Hnd Hinv Hlog k. destruct (log_lookup row results results' Hnd Hlog k)
    as [Hout Hin].
  destruct (Hinv k) as [Hinv_in Hinv_out]. split.
  - intros Hk. destruct (Hin Hk) as (col & v & _ & Hcol & Hres).
    destruct (Hinv_in Hk) as (col' & Hcol' & Hlen).
    exists (col ++ [v])%list. split; [exact Hres|].
    rewrite length_app. simpl. assert (col = col') by congruence. subst. lia.
  - intros Hk. rewrite (Hout Hk). apply Hinv_out. exact Hk.
Qed.

Lemma result_columns_NoDup : NoDup result_columns.
Proof. apply (bool_decide_unpack _). vm_compute. exact I. Qed.

Lemma initial_results_cols : cols_inv result_columns 0 initial_results.
Proof.
  intros k. split.
  - intros Hk. exists []. split; [|reflexivity].
    unfold result_columns in Hk.
    repeat (apply elem_of_cons in Hk as [-> | Hk]; [vm_compute; reflexivity|]).
    inversion Hk.
  - intros Hk. unfold initial_results, result_columns in *. simpl.
    repeat (apply not_elem_of_cons in Hk as [? Hk]).
    repeat (rewrite lookup_insert_ne by congruence).
    apply lookup_empty.
Qed.

(** ** One iteration *)

Lemma bind_Ok_intro {A B : Type} (m : result A) (f : A -> result B) (a : A) :
  m = Ok a -> (exists r, f a = Ok r) -> exists r, m ≫= f = Ok r.
Proof. intros -> H. exact H. Qed.

(** Discharge the leading bind of the goal with a lemma saying that its
    first computation returns. *)
Ltac bind_with L :=
  let r := fresh "r" in
  let E := fresh "E" in
  destruct L as [r E];
  repeat match goal with x : (_ * _)%type |- _ => destruct x end;
  apply (bind_Ok_intro _ _ _ E); cbv beta iota zeta.

Lemma getitem_positive_total (d : gmap string float) (k : string) :
  has_positive d k = true -> exists v, getitem d k = Ok v /\ 0 < v.
Proof.
  intros H. apply has_positive_Some in H as (v & Hv & Hpos).
  exists v. split; [apply getitem_Ok; exact Hv | exact Hpos].
Qed.

Lemma heater_cooler_total (g : Globals) (status : string) (T_oil T_reactor : float) :
  config_ok g = true ->
  exists r, heater_cooler g status T_oil T_reactor = Ok r.
Proof.
  intros Hok. apply config_ok_spec in Hok as (Hdt & HU & HA & Hm & _ & _).
  unfold exchanger_keys in HU, HA.
  rewrite !Forall_cons in HU. rewrite !Forall_cons in HA. rewrite !Forall_cons in Hm.
  destruct HU as (HU1 & HU2 & _). destruct HA as (HA1 & HA2 & _).
  destruct Hm as (Hflow & Hcool & _).
  apply getitem_positive_total in Hflow as (flow & Eflow & Hflow).
  apply getitem_positive_total in Hcool as (cool & Ecool & Hcool).
  unfold heater_cooler.
  destruct (String.eqb status "heating" || String.eqb status "reaction").
  - apply (bind_Ok_intro _ _ _ Eflow). apply (bind_Ok_intro _ _ _ Eflow).
    bind_with (calculate_heat_transfer_total g (T_heater_exit g T_oil T_reactor) T_oil
                 flow flow (Some (heater_max_duty (design g))) "heater_oil"
                 Hdt HU1 HA1 Hflow Hflow).
    eauto.
  - destruct (String.eqb status "cooling"); [|eauto].
    apply (bind_Ok_intro _ _ _ Eflow). apply (bind_Ok_intro _ _ _ Ecool).
    bind_with (calculate_heat_transfer_total g T_oil (cooling_water_temp (design g))
                 flow cool (Some (cooler_max_duty (design g))) "cooler_oil"
                 Hdt HU2 HA2 Hflow Hcool).
    eauto.
Qed.

Lemma loop_body_total (g : Globals) (t : Z) (st : State)
    (results : gmap string (list value)) (n : nat) :
  config_ok g = true ->
  state_inv st ->
  cols_inv result_columns n results ->
  exists r, loop_body g t st results = Ok r.
Proof.
  intros Hok Hinv Hcols. pose proof (heater_cooler_total g) as Hhc.
  specialize (fun s a b => Hhc s a b Hok).
  apply config_ok_spec in Hok as (Hdt & HU & HA & Hm & Hcp & Hmdot).
  unfold exchanger_keys in HU, HA.
  rewrite !Forall_cons in HU. rewrite !Forall_cons in HA. rewrite !Forall_cons in Hm.
  destruct HU as (_ & _ & HU3 & HU4 & HU5 & HU6 & HU7 & _).
  destruct HA as (_ & _ & HA3 & HA4 & HA5 & HA6 & HA7 & _).
  destruct Hm as (Hflow & _ & Hjacket & Hreactor & _).
  pose proof Hjacket as Hjacket'. pose proof Hreactor as Hreactor'.
  apply getitem_positive_total in Hflow as (flow & Eflow & Hflow).
  apply getitem_positive_total in Hjacket as (jacket & Ejacket & Hjacket).
  apply getitem_positive_total in Hreactor as (reactor & Ereactor & Hreactor).
  assert (Hpipe : forall T, exists r, calculate_insulation_loss g "pipe" T = Ok r).
  { intros T. apply calculate_insulation_loss_total; try assumption. congruence. }
  assert (Hjl : forall T, exists r, calculate_insulation_loss g "jacket" T = Ok r).
  { intros T. apply calculate_insulation_loss_total; try assumption. auto. }
  assert (Hrl : forall T, exists r, calculate_insulation_loss g "reactor" T = Ok r).
  { intros T. apply calculate_insulation_loss_total; try assumption. auto. }
  pose proof (update_status_total g t st Hinv) as Hus.
  unfold loop_body. destruct st as [To Tj Tr s rst]. simpl in Hus.
  repeat match goal with
    | |- exists r, log _ _ ≫= _ = Ok r => fail 1
    | |- exists r, getitem _ _ ≫= _ = Ok r =>
        first [ apply (bind_Ok_intro _ _ _ Eflow)
              | apply (bind_Ok_intro _ _ _ Ejacket)
              | apply (bind_Ok_intro _ _ _ Ereactor) ];
        cbv beta
    | |- exists r, ?m ≫= _ = Ok r =>
        let H := fresh "H" in
        assert (H : exists x, m = Ok x)
          by first [ exact Hus | apply Hhc | apply Hpipe
                   | apply Hjl | apply Hrl
                   | apply calculate_heat_transfer_total; assumption ];
        bind_with H
    end.
  match goal with
  | |- exists r, log ?row results ≫= _ = Ok r =>
      destruct (log_total row results) as [results' Elog]
  end.
  { intros k Hk. destruct (Hcols k) as [Hin _].
    destruct (Hin Hk) as (col & Hcol & _). eauto. }
  apply (bind_Ok_intro _ _ _ Elog). eauto.
Qed.

(** The logging part of an iteration: one row over all the columns, whose
    time entry is the loop variable. *)
Lemma loop_body_log (g : Globals) (t : Z) (st st' : State)
    (results results' : gmap string (list value)) :
  loop_body g t st results = Ok (st', results') ->
  exists row,
    map fst row = result_columns /\
    (forall v, ("time", v) ∈ row -> v = Num (inject_Z t)) /\
    log row results = Ok results'.
Proof.
  unfold loop_body. destruct st as [To Tj Tr s rst]. intros H.
  repeat (apply bind_Ok in H as (? & ? & H);
          repeat match goal with x : (_ * _)%type |- _ => destruct x end).
  injection H as <- <-.
  match goal with
  | Hl : log ?row results = Ok _ |- _ =>
      exists row; split; [reflexivity | split; [|exact Hl]]
  end.
  intros v Hv.
  repeat (apply elem_of_cons in Hv as [Hv | Hv]; [congruence|]).
  inversion Hv.
Qed.

Lemma loop_body_inv_preserved (g : Globals) (t : Z) (st st' : State)
    (results results' : gmap string (list value)) (n : nat) (times : list value) :
  state_inv st ->
  cols_inv result_columns n results ->
  results !! "time" = Some times ->
  loop_body g t st results = Ok (st', results') ->
  state_inv st' /\
  cols_inv result_columns (S n) results' /\
  results' !! "time" = Some (times ++ [Num (inject_Z t)])%list.
Proof.
  intros Hinv Hcols Htime Hbody. split; [|split].
  - apply loop_body_status in Hbody.
    apply update_status_legal in Hbody; [|exact Hinv].
    destruct Hbody as (_ & _ & _ & _ & _ & Hinv'). exact Hinv'.
  - apply loop_body_log in Hbody as (row & Hkeys & _ & Hlog).
    rewrite <- Hkeys in *. apply (log_cols row n results); try assumption.
    rewrite Hkeys. apply result_columns_NoDup.
  - apply loop_body_log in Hbody as (row & Hkeys & Hrow & Hlog).
    assert (Hnd : NoDup (map fst row))
      by (rewrite Hkeys; apply result_columns_NoDup).
    destruct (log_lookup row results results' Hnd Hlog "time") as [_ Hin].
    destruct Hin as (col & v & Hv & Hcol & Hres).
    { rewrite Hkeys. left. }
    rewrite (Hrow v Hv) in Hres. congruence.
Qed.

(** ** The whole loop *)

Lemma run_loop_total (g : Globals) (ts : list Z) :
  config_ok g = true ->
  forall (st : State) (results : gmap string (list value))
         (n : nat) (times : list value),
    state_inv st ->
    cols_inv result_columns n results ->
    results !! "time" = Some times ->
    exists st' results',
      run_loop g ts st results = Ok (st', results') /\
      cols_inv result_columns (n + length ts) results' /\
      results' !! "time" = Some (times ++ map (fun t => Num (inject_Z t)) ts)%list.
Proof.
  intros Hok. induction ts as [|t ts IH]; intros st results n times Hinv Hcols Htime.
  - exists st, results. simpl. rewrite Nat.add_0_r, app_nil_r. auto.
  - destruct (loop_body_total g t st results n Hok Hinv Hcols) as [[st1 results1] Hbody].
    destruct (loop_body_inv_preserved g t st st1 results results1 n times
                Hinv Hcols Htime Hbody) as (Hinv1 & Hcols1 & Htime1).
    destruct (IH st1 results1 (S n) _ Hinv1 Hcols1 Htime1)
      as (st' & results' & Hrun & Hcols' & Htime').
    exists st', results'. simpl. rewrite Hbody. simpl.
    split; [exact Hrun|]. split.
    + replace (n + S (length ts))%nat with (S n + length ts)%nat by lia. exact Hcols'.
    + rewrite Htime'. rewrite <- app_assoc. reflexivity.
Qed.

Lemma range_length_divides (stop step : Z) :
  (0 < step)%Z -> (0 <= stop)%Z -> (step | stop)%Z ->
  range_length 0 stop step = Z.to_nat (stop / step).
Proof.
  intros Hstep Hstop [k ->]. unfold range_length.
  rewrite (proj2 (Z.ltb_lt 0 step) Hstep).
  rewrite Z.div_mul by lia.
  destruct (Z.ltb_spec 0 (k * step)) as [Hpos | Hzero].
  - f_equal. assert (Hk : (1 <= k)%Z) by nia.
    replace (k * step - 1 - 0)%Z with ((k - 1) * step + (step - 1))%Z by ring.
    rewrite Z.div_add_l by lia. rewrite Z.div_small by lia. lia.
  - assert (k = 0)%Z by nia. subst. reflexivity.
Qed.

(** C9.  With a configuration under which no step raises, a
    non-negative [end_time] and a [dt] that divides it, the driver
    iterates over [0, dt, 2 dt, ...], all strictly below [end_time], logs
    these times in order, and ends with exactly [end_time / dt] entries
    in every column of [results]. *)
Theorem simulate_record_count (g : Globals) :
  config_ok g = true ->
  (0 <= end_time g)%Z ->
  (dt g | end_time g)%Z ->
  let n := Z.to_nat (end_time g / dt g) in
  let ts := map (fun i : nat => (0 + Z.of_nat i * dt g)%Z) (seq 0 n) in
  exists st results,
    simulate g = Ok (st, results) /\
    py_range 0 (end_time g) (dt g) = Ok ts /\
    Forall (fun t => (0 <= t < end_time g)%Z) ts /\
    results !! "time" = Some (map (fun t => Num (inject_Z t)) ts) /\
    (forall k, k ∈ result_columns ->
       exists col, results !! k = Some col /\ length col = n) /\
    (forall k col, results !! k = Some col -> length col = n).
Proof.
  intros Hok Hend Hdiv n ts.
  pose proof (config_ok_spec g Hok) as (Hdt & _).
  assert (Hrange : py_range 0 (end_time g) (dt g) = Ok ts).
  { unfold py_range. destruct (Z.eqb_spec (dt g) 0) as [E | _]; [lia|].
    rewrite range_length_divides by assumption. reflexivity. }
  assert (Hinv0 : state_inv (initial_state g)) by (left; auto).
  destruct (run_loop_total g ts Hok (initial_state g) initial_results 0 []
              Hinv0 initial_results_cols) as (st & results & Hrun & Hcols & Htime).
  { vm_compute. reflexivity. }
  assert (Hlen : length ts = n) by (unfold ts; rewrite length_map, length_seq; reflexivity).
  rewrite Hlen in Hcols. simpl in Hcols, Htime.
  exists st, results. split; [|split; [exact Hrange|split; [|split; [exact Htime|split]]]].
  - unfold simulate. rewrite Hrange. exact Hrun.
  - apply Forall_forall. intros t Ht. unfold ts in Ht.
    apply list_elem_of_In, in_map_iff in Ht as (i & <- & Hi).
    apply in_seq in Hi. destruct Hdiv as [k Hk]. unfold n in Hi.
    rewrite Hk, Z.div_mul in Hi by lia. rewrite Hk. nia.
  - intros k Hk. apply (proj1 (Hcols k) Hk).
  - intros k col Hcol. destruct (decide (k ∈ result_columns)) as [Hk | Hk].
    + destruct (proj1 (Hcols k) Hk) as (col' & Hcol' & Hlen'). congruence.
    + rewrite (proj2 (Hcols k) Hk) in Hcol. discriminate.
Qed.

Lemma simulate_record_count_witness :
  exists st results,
    simulate V2.globals = Ok (st, results) /\
    (forall k, k ∈ result_columns ->
       exists col, results !! k = Some col /\ length col = 360%nat) /\
    (forall k col, results !! k = Some col -> length col = 360%nat).
Proof.
  destruct (simulate_record_count V2.globals)
    as (st & results & Hsim & _ & _ & _ & Hcols & Hall).
  - vm_compute. reflexivity.
  - vm_compute. discriminate.
  - exists 360%Z. reflexivity.
  - exists st, results. split; [exact Hsim|]. split; [exact Hcols | exact Hall].
Defined.

(** The run of the script itself: it returns, and its iterations are legal
    steps of the state machine. *)
Corollary simulate_states_legal (g : Globals) (ts : list Z) :
  config_ok g = true ->
  py_range 0 (end_time g) (dt g) = Ok ts ->
  exists st results trace,
    simulate g = Ok (st, results) /\
    run_states g ts (initial_state g) initial_results = Ok trace /\
    last (initial_state g :: trace) = Some st /\
    steps_legal g ts (initial_state g) trace.
Proof.
  intros Hok Hrange.
  assert (Hinv0 : state_inv (initial_state g)) by (left; auto).
  destruct (run_loop_total g ts Hok (initial_state g) initial_results 0 []
              Hinv0 initial_results_cols) as (st & results & Hrun & _).
  { vm_compute. reflexivity. }
  destruct (run_loop_states g ts _ _ _ _ Hrun) as (trace & Htrace & _ & Hlast).
  exists st, results, trace. unfold simulate. rewrite Hrange.
  split; [exact Hrun|]. split; [exact Htrace|]. split; [exact Hlast|].
  exact (run_states_legal g ts _ _ _ Hinv0 Htrace).
Qed.

(** * Further properties of the heat-transfer functions *)

Lemma py_div_zero (x y : float) : y == 0 -> py_div x y = Raise ZeroDivisionError.
Proof.
  intros H. unfold py_div. apply Qeq_bool_iff in H. rewrite H. reflexivity.
Qed.

(** With both lookups resolved, the call is the no-transfer return or the
    arbitration between the four divisions. *)
Lemma calculate_heat_transfer_eq
    (g : Globals) (T_hot_in T_cold_in thermal_mass_hot thermal_mass_cold : float)
    (max_duty : option float) (Exchanger_name : string) (U A : float) :
  U_values (design g) !! Exchanger_name = Some U ->
  heat_exchange_areas (design g) !! Exchanger_name = Some A ->
  calculate_heat_transfer g T_hot_in T_cold_in thermal_mass_hot thermal_mass_cold
    max_duty Exchanger_name
  = let dT := delta_T g T_hot_in T_cold_in in
    if Qle_bool dT 0 then Ok (0, T_hot_in, T_cold_in, "no transfer")
    else
      Q_flow_hot ← py_div (thermal_mass_hot * dT) (dtQ g);
      Q_flow_cold ← py_div (thermal_mass_cold * dT) (dtQ g);
      let lim := limiting (U * A * dT) Q_flow_hot Q_flow_cold max_duty in
      dh ← py_div (lim.1 * dtQ g) thermal_mass_hot;
      dc ← py_div (lim.1 * dtQ g) thermal_mass_cold;
      Ok (lim.1, T_hot_in - dh, T_cold_in + dc, lim.2).
Proof.
  intros HU HA. unfold calculate_heat_transfer, limiting.
  apply getitem_Ok in HU, HA. rewrite HU, HA. simpl.
  fold (delta_T g T_hot_in T_cold_in).
  destruct (Qle_bool (delta_T g T_hot_in T_cold_in) 0); [reflexivity|].
  destruct (py_div (thermal_mass_hot * _) (dtQ g)) as [Qh|]; [|reflexivity]. simpl.
  destruct (py_div (thermal_mass_cold * _) (dtQ g)) as [Qc|]; [|reflexivity]. simpl.
  destruct (Qltb Qh _); destruct (Qltb Qc _); destruct max_duty as [cap|];
    try destruct (Qltb cap _); reflexivity.
Qed.

(** X1.  The call raises [KeyError] for an exchanger missing from either
    dictionary, raises [ZeroDivisionError] when transfer occurs and the
    timestep or a capacitance is zero, and returns in every other case; a
    zero capacitance is harmless when no transfer occurs. *)
Theorem calculate_heat_transfer_raises
    (g : Globals) (T_hot_in T_cold_in thermal_mass_hot thermal_mass_cold : float)
    (max_duty : option float) (Exchanger_name : string) :
  let call :=
    calculate_heat_transfer g T_hot_in T_cold_in thermal_mass_hot thermal_mass_cold
      max_duty Exchanger_name in
  let configured :=
    is_Some (U_values (design g) !! Exchanger_name) /\
    is_Some (heat_exchange_areas (design g) !! Exchanger_name) in
  let degenerate := dtQ g == 0 \/ thermal_mass_hot == 0 \/ thermal_mass_cold == 0 in
  (~ configured -> call = Raise (KeyError Exchanger_name)) /\
  (configured -> 0 < delta_T g T_hot_in T_cold_in -> degenerate ->
   call = Raise ZeroDivisionError) /\
  (configured -> delta_T g T_hot_in T_cold_in <= 0 \/ ~ degenerate ->
   exists r, call = Ok r).
Proof.
  cbv zeta. split; [|split].
  - intros Hn. unfold calculate_heat_transfer, getitem.
    destruct (U_values (design g) !! Exchanger_name) as [U|] eqn:HU; [|reflexivity].
    destruct (heat_exchange_areas (design g) !! Exchanger_name) as [A|] eqn:HA;
      [|reflexivity].
    exfalso. apply Hn. split; eauto.
  - intros [[U HU] [A HA]] HdT Hdeg.
    rewrite (calculate_heat_transfer_eq _ _ _ _ _ _ _ U A HU HA). cbv zeta.
    apply Qle_bool_gt in HdT. rewrite HdT.
    destruct (Qeq_dec (dtQ g) 0) as [Hdt | Hdt].
    { rewrite !(py_div_zero _ (dtQ g) Hdt). reflexivity. }
    rewrite !(py_div_total _ (dtQ g) Hdt). simpl.
    destruct (Qeq_dec thermal_mass_hot 0) as [Hmh | Hmh].
    { rewrite (py_div_zero _ thermal_mass_hot Hmh). reflexivity. }
    rewrite (py_div_total _ thermal_mass_hot Hmh). simpl.
    rewrite (py_div_zero _ thermal_mass_cold); [reflexivity|]. tauto.
  - intros [[U HU] [A HA]] Hcase.
    destruct (Qlt_le_dec 0 (delta_T g T_hot_in T_cold_in)) as [Hpos | Hle].
    + destruct Hcase as [Hle | Hnd]; [lra|].
      destruct (calculate_heat_transfer_transfer g T_hot_in T_cold_in
                  thermal_mass_hot thermal_mass_cold max_duty Exchanger_name
                  U A HU HA Hpos) as (Q_lim & reason & _ & E); try tauto.
      rewrite E. eauto.
    + rewrite (calculate_heat_transfer_no_transfer g T_hot_in T_cold_in
                 thermal_mass_hot thermal_mass_cold max_duty Exchanger_name
                 U A HU HA Hle). eauto.
Qed.

Lemma calculate_heat_transfer_raises_witness :
  calculate_heat_transfer V2.globals 100 20 (880000 # 3) (880000 # 3) None ""
  = Raise (KeyError "") /\
  calculate_heat_transfer V2.globals 100 20 0 1 None "heater_oil"
  = Raise ZeroDivisionError /\
  exists r, calculate_heat_transfer V2.globals 20 20 0 0 None "heater_oil" = Ok r.
Proof.
  split; [|split].
  - apply (calculate_heat_transfer_raises V2.globals 100 20 (880000 # 3) (880000 # 3)
             None "").
    intros [[U HU] _]. vm_compute in HU. discriminate HU.
  - apply (calculate_heat_transfer_raises V2.globals 100 20 0 1 None "heater_oil").
    + split; vm_compute; eauto.
    + vm_compute. reflexivity.
    + right. left. reflexivity.
  - apply (calculate_heat_transfer_raises V2.globals 20 20 0 0 None "heater_oil").
    + split; vm_compute; eauto.
    + left. vm_compute. discriminate.
Defined.

(** X2.  The reason of a returned call is one of the five tags; it is
    "no transfer" exactly when the inlet difference does not exceed the
    approach temperature, and "device" only when a cap was supplied and the
    duty equals that cap. *)
Theorem calculate_heat_transfer_reason_tags
    (g : Globals) (T_hot_in T_cold_in thermal_mass_hot thermal_mass_cold : float)
    (max_duty : option float) (Exchanger_name : string)
    (Q_lim T_hot_out T_cold_out : float) (reason : string) :
  calculate_heat_transfer g T_hot_in T_cold_in thermal_mass_hot thermal_mass_cold
    max_duty Exchanger_name = Ok (Q_lim, T_hot_out, T_cold_out, reason) ->
  reason ∈ ["area"; "hot flow"; "cold flow"; "device"; "no transfer"] /\
  (reason = "no transfer" <-> T_hot_in - T_cold_in <= approach_temp g) /\
  (reason = "device" -> max_duty = Some Q_lim).
Proof.
  intros Hcall.
  apply calculate_heat_transfer_inv in Hcall as (U & A & _ & _ & [[Hle Heq]|H]).
  - injection Heq as -> -> -> ->. split; [set_solver|]. split; [|discriminate].
    split; [|reflexivity]. intros _. unfold delta_T in Hle.
    destruct (py_max_0 (T_hot_in - T_cold_in - approach_temp g)) as [[H _]|[H E]];
      [lra | rewrite E in Hle; lra].
  - destruct H as (HdT & _ & _ & _ & Hlim & _).
    assert (Hne : reason <> "no transfer" /\
                  reason ∈ ["area"; "hot flow"; "cold flow"; "device"; "no transfer"] /\
                  (reason = "device" -> max_duty = Some Q_lim)).
    { unfold limiting in Hlim.
      destruct (Qltb _ _) in Hlim; destruct (Qltb _ _) in Hlim;
        destruct max_duty as [cap|]; try destruct (Qltb cap _) in Hlim;
        injection Hlim as -> ->;
        (split; [discriminate | split; [set_solver | try discriminate; reflexivity]]). }
    destruct Hne as (Hne & Hin & Hdev). split; [exact Hin|]. split; [|exact Hdev].
    split; [contradiction|]. intros Hle. exfalso. unfold delta_T in HdT.
    destruct (py_max_0 (T_hot_in - T_cold_in - approach_temp g)) as [[_ E]|[H _]];
      lra.
Qed.

Lemma calculate_heat_transfer_reason_tags_witness :
  exists Q_lim T_hot_out T_cold_out reason,
    calculate_heat_transfer V2.globals 1 0 60000 72000 (Some 100) "heater_oil"
    = Ok (Q_lim, T_hot_out, T_cold_out, reason) /\
    reason ∈ ["area"; "hot flow"; "cold flow"; "device"; "no transfer"].
Proof.
  eexists _, _, _, _.
  assert (Hcall : calculate_heat_transfer V2.globals 1 0 60000 72000 (Some 100)
                    "heater_oil"
                  = Ok (100, 54000 # 60000, 6000 # 72000, "device"))
    by (vm_compute; reflexivity).
  split; [exact Hcall|].
  exact (proj1 (calculate_heat_transfer_reason_tags _ _ _ _ _ _ _ _ _ _ _ Hcall)).
Defined.

(** X3.  A flow-limited reason names the candidate that was taken: with
    reason "hot flow" the duty is the hot-side candidate
    [thermal_mass_hot delta_T / dt], strictly below the area candidate and
    not above the cold-side one; with reason "cold flow" it is the
    cold-side candidate, strictly below both others; in either case a
    supplied cap is not below the duty. *)
Theorem calculate_heat_transfer_flow_limited
    (g : Globals) (T_hot_in T_cold_in thermal_mass_hot thermal_mass_cold : float)
    (max_duty : option float) (Exchanger_name : string) (U A : float)
    (Q_lim T_hot_out T_cold_out : float) (reason : string) :
  U_values (design g) !! Exchanger_name = Some U ->
  heat_exchange_areas (design g) !! Exchanger_name = Some A ->
  calculate_heat_transfer g T_hot_in T_cold_in thermal_mass_hot thermal_mass_cold
    max_duty Exchanger_name = Ok (Q_lim, T_hot_out, T_cold_out, reason) ->
  let Q_area := U * A * delta_T g T_hot_in T_cold_in in
  let Q_flow_hot := thermal_mass_hot * delta_T g T_hot_in T_cold_in / dtQ g in
  let Q_flow_cold := thermal_mass_cold * delta_T g T_hot_in T_cold_in / dtQ g in
  (reason = "hot flow" ->
   Q_lim = Q_flow_hot /\ Q_flow_hot < Q_area /\ Q_flow_hot <= Q_flow_cold) /\
  (reason = "cold flow" ->
   Q_lim = Q_flow_cold /\ Q_flow_cold < Q_area /\ Q_flow_cold < Q_flow_hot) /\
  (reason = "hot flow" \/ reason = "cold flow" ->
   forall cap, max_duty = Some cap -> Q_lim <= cap).
Proof.
  intros HU HA Hcall. cbv zeta.
  apply calculate_heat_transfer_inv in Hcall as (U' & A' & HU' & HA' & [[Hle Heq]|H]).
  { injection Heq as -> -> -> ->.
    split; [discriminate|]. split; [discriminate|]. intros [H|H]; discriminate H. }
  rewrite HU in HU'. rewrite HA in HA'. injection HU' as <-. injection HA' as <-.
  destruct H as (_ & _ & _ & _ & Hlim & _).
  unfold limiting in Hlim.
  destruct max_duty as [cap|]; split_comparisons; injection Hlim as -> ->;
    (split;
     [ intros Hr; first [discriminate Hr | split; [reflexivity | split; lra]]
     | split;
       [ intros Hr; first [discriminate Hr | split; [reflexivity | split; lra]]
       | intros [Hr|Hr];
         (first [discriminate Hr
                | intros cap' Hcap';
                  first [discriminate Hcap' | injection Hcap' as <-; lra]]) ] ]).
Qed.

Lemma calculate_heat_transfer_flow_limited_witness :
  exists Q_lim T_hot_out T_cold_out,
    calculate_heat_transfer V2.globals 1 0 60000 36000 None "heater_oil"
    = Ok (Q_lim, T_hot_out, T_cold_out, "cold flow") /\
    Q_lim = 36000 * delta_T V2.globals 1 0 / dtQ V2.globals /\
    36000 * delta_T V2.globals 1 0 / dtQ V2.globals
    < 200 * 5.0 * delta_T V2.globals 1 0 /\
    36000 * delta_T V2.globals 1 0 / dtQ V2.globals
    < 60000 * delta_T V2.globals 1 0 / dtQ V2.globals.
Proof.
  eexists _, _, _.
  assert (Hcall : calculate_heat_transfer V2.globals 1 0 60000 36000 None "heater_oil"
                  = Ok (180000 # 600, 25200000 # 36000000, 10800000 # 21600000,
                        "cold flow")) by (vm_compute; reflexivity).
  split; [exact Hcall|].
  refine (proj1 (proj2 (calculate_heat_transfer_flow_limited V2.globals 1 0 60000 36000
                          None "heater_oil" 200 5.0 _ _ _ _ _ _ Hcall)) eq_refl);
    vm_compute; reflexivity.
Defined.

(** X4.  The insulation loss raises [KeyError] on the concatenated key
    when the component has no "_outside" entry, [KeyError] on the
    component name when a static component has no thermal mass,
    [ZeroDivisionError] on a zero capacitance (or zero oil heat flow for
    the pipe), and returns otherwise; a zero timestep does not raise. *)
Theorem calculate_insulation_loss_raises
    (g : Globals) (component_name : string) (T_current : float) :
  let call := calculate_insulation_loss g component_name T_current in
  let key_outside := (component_name ++ "_outside")%string in
  let configured :=
    is_Some (U_values (design g) !! key_outside) /\
    is_Some (heat_exchange_areas (design g) !! key_outside) in
  (~ configured -> call = Raise (KeyError key_outside)) /\
  (configured -> component_name <> "pipe" ->
   match thermal_mass g !! component_name with
   | None => call = Raise (KeyError component_name)
   | Some Tmass =>
       if Qeq_bool Tmass 0 then call = Raise ZeroDivisionError
       else exists r, call = Ok r
   end) /\
  (configured -> component_name = "pipe" ->
   match cp g !! "oil" with
   | None => call = Raise (KeyError "oil")
   | Some cp_oil =>
       if Qeq_bool (m_dot_oil g * cp_oil) 0 then call = Raise ZeroDivisionError
       else exists r, call = Ok r
   end).
Proof.
  cbv zeta. unfold calculate_insulation_loss, getitem. split; [|split].
  - intros Hn.
    destruct (U_values (design g) !! _) as [U|] eqn:HU; [|reflexivity].
    destruct (heat_exchange_areas (design g) !! _) as [A|] eqn:HA; [|reflexivity].
    exfalso. apply Hn. split; eauto.
  - intros [[U ->] [A ->]] Hname. simpl.
    apply String.eqb_neq in Hname. rewrite Hname.
    destruct (thermal_mass g !! component_name) as [Tmass|]; [|reflexivity].
    simpl. unfold py_div. destruct (Qeq_bool Tmass 0); simpl; eauto.
  - intros [[U ->] [A ->]] ->. simpl.
    destruct (cp g !! "oil") as [c|]; [|reflexivity].
    simpl. unfold py_div. destruct (Qeq_bool (m_dot_oil g * c) 0); simpl; eauto.
Qed.

Lemma calculate_insulation_loss_raises_witness :
  calculate_insulation_loss V2.globals "oil" 100 = Raise (KeyError "oil_outside").
Proof.
  apply (calculate_insulation_loss_raises V2.globals "oil" 100).
  intros [[U HU] _]. vm_compute in HU. discriminate HU.
Defined.

(** X5.  On a node with positive [U A] and the positive capacitance (or
    oil heat flow for the pipe) of the configuration, a temperature above
    ambient gives a strictly positive loss and an updated temperature that
    is not above [T_current], and a temperature equal to ambient gives a
    zero loss and leaves the temperature where it is. *)
Theorem insulation_loss_above_ambient_is_loss
    (g : Globals) (component_name : string) (T_current U A Q_loss T_updated : float) :
  U_values (design g) !! (component_name ++ "_outside")%string = Some U ->
  heat_exchange_areas (design g) !! (component_name ++ "_outside")%string = Some A ->
  0 < U * A ->
  (0 < dt g)%Z ->
  (component_name <> "pipe" ->
   forall Tmass, thermal_mass g !! component_name = Some Tmass -> 0 < Tmass) ->
  (component_name = "pipe" ->
   forall cp_oil, cp g !! "oil" = Some cp_oil -> 0 < m_dot_oil g * cp_oil) ->
  calculate_insulation_loss g component_name T_current = Ok (Q_loss, T_updated) ->
  (ambient_temp (design g) < T_current -> 0 < Q_loss /\ T_updated <= T_current) /\
  (T_current == ambient_temp (design g) -> Q_loss == 0 /\ T_updated == T_current).
Proof.
  intros HU HA HUA Hdt Hmass Hflow Hcall. apply dtQ_pos in Hdt.
  apply calculate_insulation_loss_inv in Hcall as (U' & A' & HU' & HA' & HQ & Hupd).
  rewrite HU in HU'. rewrite HA in HA'. injection HU' as <-. injection HA' as <-.
  set (p := U * A) in *.
  assert (Hdiv : exists c, 0 < c /\ T_updated == T_current - Q_loss * c).
  { destruct Hupd as [(Hname & c & Hc & _ & ->)|(Hname & m & Hm & _ & ->)].
    - specialize (Hflow Hname c Hc). exists (/ (m_dot_oil g * c)). split.
      + apply Qinv_lt_0_compat. exact Hflow.
      + reflexivity.
    - specialize (Hmass Hname m Hm). exists (dtQ g / m). split.
      + apply Qlt_shift_div_l; [exact Hmass | lra].
      + field. lra. }
  destruct Hdiv as (c & Hc & HT). split.
  - intros Habove. assert (HQpos : 0 < Q_loss) by (rewrite HQ; nra).
    split; [exact HQpos|]. rewrite HT. nra.
  - intros Heq. assert (HQ0 : Q_loss == 0) by (rewrite HQ, Heq; ring).
    split; [exact HQ0|]. rewrite HT, HQ0. ring.
Qed.

Lemma insulation_loss_above_ambient_is_loss_witness :
  exists Q_loss T_updated,
    calculate_insulation_loss V2.globals "jacket" 100 = Ok (Q_loss, T_updated) /\
    ambient_temp (design V2.globals) < 100 /\
    0 < Q_loss /\ T_updated <= 100.
Proof.
  eexists _, _.
  assert (Hcall : calculate_insulation_loss V2.globals "jacket" 100
                  = Ok (39792587355159975000 # 28147497671065600,
                        14039302123353731368934423327145984000000000000000
                        # 140500547162488197513972273276518400000000000000))
    by (vm_compute; reflexivity).
  assert (HT : ambient_temp (design V2.globals) < 100) by reflexivity.
  split; [exact Hcall|]. split; [exact HT|].
  apply (insulation_loss_above_ambient_is_loss V2.globals "jacket" 100
           2 (265283915701066500 # 28147497671065600)
           (39792587355159975000 # 28147497671065600)
           (14039302123353731368934423327145984000000000000000
            # 140500547162488197513972273276518400000000000000)).
  - vm_compute; reflexivity.
  - vm_compute; reflexivity.
  - reflexivity.
  - reflexivity.
  - intros _ m Hm. vm_compute in Hm. injection Hm as <-. reflexivity.
  - intros [=].
  - exact Hcall.
  - exact HT.
Defined.



(** * Further properties of the heater and cooler stage *)

(** Everything the sign conditions give for one returned exchange. *)
Lemma calculate_heat_transfer_bounds
    (g : Globals) (T_hot_in T_cold_in thermal_mass_hot thermal_mass_cold : float)
    (max_duty : option float) (Exchanger_name : string)
    (Q_lim T_hot_out T_cold_out : float) (reason : string) :
  (0 < dt g)%Z ->
  has_positive (U_values (design g)) Exchanger_name = true ->
  has_positive (heat_exchange_areas (design g)) Exchanger_name = true ->
  0 < thermal_mass_hot -> 0 < thermal_mass_cold ->
  (forall cap, max_duty = Some cap -> 0 <= cap) ->
  calculate_heat_transfer g T_hot_in T_cold_in thermal_mass_hot thermal_mass_cold
    max_duty Exchanger_name = Ok (Q_lim, T_hot_out, T_cold_out, reason) ->
  0 <= Q_lim /\
  (forall cap, max_duty = Some cap -> Q_lim <= cap) /\
  T_hot_out <= T_hot_in /\ T_cold_in <= T_cold_out /\
  ((T_hot_in - T_cold_in <= approach_temp g /\
    T_hot_out = T_hot_in /\ T_cold_out = T_cold_in /\ Q_lim = 0) \/
   (approach_temp g < T_hot_in - T_cold_in /\
    T_cold_in + approach_temp g <= T_hot_out /\
    T_cold_out <= T_hot_in - approach_temp g)).
Proof.
  intros Hdt HUp HAp Hmh Hmc Hcap Hcall. apply dtQ_pos in Hdt.
  assert (Hdrive : (delta_T g T_hot_in T_cold_in <= 0 ->
                    T_hot_in - T_cold_in <= approach_temp g) /\
                   (0 < delta_T g T_hot_in T_cold_in ->
                    approach_temp g < T_hot_in - T_cold_in)).
  { unfold delta_T.
    destruct (py_max_0 (T_hot_in - T_cold_in - approach_temp g)) as [[H1 H2]|[H1 H2]];
      [|rewrite H2]; split; intros; lra. }
  apply has_positive_Some in HUp as (U0 & HU0 & HUpos).
  apply has_positive_Some in HAp as (A0 & HA0 & HApos).
  apply calculate_heat_transfer_inv in Hcall as (U & A & HU & HA & [[Hle Heq]|H]).
  - injection Heq as -> -> -> ->.
    split; [lra|]. split; [intros cap Hc; exact (Hcap cap Hc)|].
    split; [lra|]. split; [lra|]. left. split; [apply Hdrive; exact Hle | auto].
  - rewrite HU0 in HU. rewrite HA0 in HA. injection HU as <-. injection HA as <-.
    destruct H as (HdT & _ & _ & _ & Hlim & -> & ->).
    set (d := delta_T g T_hot_in T_cold_in) in *.
    assert (EQ : Q_lim = (limiting (U0 * A0 * d) (thermal_mass_hot * d / dtQ g)
                            (thermal_mass_cold * d / dtQ g) max_duty).1)
      by (rewrite <- Hlim; reflexivity).
    assert (HQ : 0 <= Q_lim).
    { rewrite EQ. apply limiting_nonneg; [ | | | exact Hcap].
      - apply Qmult_le_0_compat; [apply Qmult_le_0_compat|]; lra.
      - apply Qdiv_nonneg; [apply Qmult_le_0_compat; lra | exact Hdt].
      - apply Qdiv_nonneg; [apply Qmult_le_0_compat; lra | exact Hdt]. }
    assert (Hcapped : forall cap, max_duty = Some cap -> Q_lim <= cap).
    { intros cap ->. rewrite EQ, limiting_min. unfold candidates_min.
      apply Q.le_min_r. }
    pose proof (limiting_le_flow (U0 * A0 * d) (thermal_mass_hot * d / dtQ g)
                  (thermal_mass_cold * d / dtQ g) max_duty) as [Hh Hc].
    rewrite <- EQ in Hh, Hc.
    assert (EdT : d == T_hot_in - T_cold_in - approach_temp g).
    { subst d. unfold delta_T in *.
      destruct (py_max_0 (T_hot_in - T_cold_in - approach_temp g)) as [[_ E]|[_ E]];
        [lra | rewrite E; reflexivity]. }
    assert (Hh0 : 0 <= Q_lim * dtQ g / thermal_mass_hot)
      by (apply Qdiv_nonneg; [apply Qmult_le_0_compat; lra | exact Hmh]).
    assert (Hc0 : 0 <= Q_lim * dtQ g / thermal_mass_cold)
      by (apply Qdiv_nonneg; [apply Qmult_le_0_compat; lra | exact Hmc]).
    assert (Hh' : Q_lim * dtQ g / thermal_mass_hot <= d).
    { apply Qle_shift_div_r; [exact Hmh|].
      assert (E : thermal_mass_hot * d / dtQ g * dtQ g == d * thermal_mass_hot)
        by (field; lra).
      rewrite <- E. apply Qmult_le_compat_r; [exact Hh | lra]. }
    assert (Hc' : Q_lim * dtQ g / thermal_mass_cold <= d).
    { apply Qle_shift_div_r; [exact Hmc|].
      assert (E : thermal_mass_cold * d / dtQ g * dtQ g == d * thermal_mass_cold)
        by (field; lra).
      rewrite <- E. apply Qmult_le_compat_r; [exact Hc | lra]. }
    split; [exact HQ|]. split; [exact Hcapped|].
    split; [lra|]. split; [lra|]. right.
    split; [apply Hdrive; exact HdT|]. split; lra.
Qed.

(** The three branches of the heater and cooler stage. *)
Lemma heater_cooler_inv (g : Globals) (status : string) (T_oil T_reactor : float)
    (Q_heater Q_cooler T_oil' : float) (limit_heater limit_cooler : string) :
  heater_cooler g status T_oil T_reactor
  = Ok (Q_heater, Q_cooler, T_oil', limit_heater, limit_cooler) ->
  ((status = "heating" \/ status = "reaction") /\
   Q_cooler = 0 /\ limit_cooler = "no transfer" /\
   exists flow T_hot_out,
     thermal_mass g !! "flow" = Some flow /\
     calculate_heat_transfer g (T_heater_exit g T_oil T_reactor) T_oil flow flow
       (Some (heater_max_duty (design g))) "heater_oil"
     = Ok (Q_heater, T_hot_out, T_oil', limit_heater))
  \/
  (status = "cooling" /\
   Q_heater = 0 /\ limit_heater = "no transfer" /\
   exists flow cooling T_hot_out,
     thermal_mass g !! "flow" = Some flow /\
     thermal_mass g !! "cooling" = Some cooling /\
     calculate_heat_transfer g T_oil (cooling_water_temp (design g)) flow cooling
       (Some (cooler_max_duty (design g))) "cooler_oil"
     = Ok (Q_cooler, T_hot_out, T_oil', limit_cooler))
  \/
  (status <> "heating" /\ status <> "reaction" /\ status <> "cooling" /\
   Q_heater = 0 /\ Q_cooler = 0 /\ T_oil' = T_oil /\
   limit_heater = "no transfer" /\ limit_cooler = "no transfer").
Proof.
  unfold heater_cooler. intros H.
  destruct (String.eqb_spec status "heating") as [Hh | Hh];
    [|destruct (String.eqb_spec status "reaction") as [Hr | Hr]]; simpl in H.
  1, 2: left; split; [tauto|];
    apply bind_Ok in H as (flow & Hflow & H);
    apply bind_Ok in H as (flow' & Hflow' & H);
    apply bind_Ok in H as ([[[Qh ho] To] r] & Hcall & H);
    rewrite Hflow in Hflow'; injection Hflow' as <-;
    apply getitem_Ok in Hflow; injection H as <- <- <- <- <-;
    split; [reflexivity|]; split; [reflexivity|]; eauto.
  destruct (String.eqb_spec status "cooling") as [Hc | Hc].
  - right. left. split; [exact Hc|].
    apply bind_Ok in H as (flow & Hflow & H).
    apply bind_Ok in H as (cooling & Hcooling & H).
    apply bind_Ok in H as ([[[Qc ho] To] r] & Hcall & H).
    apply getitem_Ok in Hflow, Hcooling. injection H as <- <- <- <- <-.
    split; [reflexivity|]. split; [reflexivity|]. eauto 6.
  - right. right. injection H as <- <- <- <- <-. auto 10.
Qed.

(** X7.  The heater and the cooler are never both active: while heating
    or in reaction the cooler duty is 0 with reason "no transfer", while
    cooling the heater duty is 0 with reason "no transfer", and in any
    other status both are off and the oil temperature passes through. *)
Theorem heater_cooler_exclusive (g : Globals) (status : string)
    (T_oil T_reactor Q_heater Q_cooler T_oil' : float)
    (limit_heater limit_cooler : string) :
  heater_cooler g status T_oil T_reactor
  = Ok (Q_heater, Q_cooler, T_oil', limit_heater, limit_cooler) ->
  ((Q_heater = 0 /\ limit_heater = "no transfer") \/
   (Q_cooler = 0 /\ limit_cooler = "no transfer")) /\
  (status = "heating" \/ status = "reaction" ->
   Q_cooler = 0 /\ limit_cooler = "no transfer") /\
  (status = "cooling" -> Q_heater = 0 /\ limit_heater = "no transfer") /\
  (status <> "heating" -> status <> "reaction" -> status <> "cooling" ->
   Q_heater = 0 /\ Q_cooler = 0 /\ T_oil' = T_oil).
Proof.
  intros H. apply heater_cooler_inv in H.
  destruct H as [(Hs & -> & -> & _) | [(-> & -> & -> & _)
               | (H1 & H2 & H3 & -> & -> & -> & -> & ->)]].
  - split; [auto|]. split; [auto|]. split.
    + intros ->. destruct Hs; discriminate.
    + intros H1 H2. destruct Hs; contradiction.
  - split; [auto|]. split; [intros [?|?]; discriminate|]. split; [auto|].
    intros _ _ H. contradiction.
  - split; [auto|]. split; [intros [?|?]; contradiction|]. split; [contradiction|].
    auto.
Qed.

Lemma heater_cooler_exclusive_witness :
  exists Q_heater Q_cooler T_oil' limit_heater limit_cooler,
    heater_cooler V2.globals "cooling" 150 170
    = Ok (Q_heater, Q_cooler, T_oil', limit_heater, limit_cooler) /\
    Q_heater = 0 /\ limit_heater = "no transfer".
Proof.
  destruct (heater_cooler V2.globals "cooling" 150 170)
    as [[[[[Qh Qc] To] lh] lc]|e] eqn:E.
  - exists Qh, Qc, To, lh, lc. split; [reflexivity|].
    exact (proj1 (proj2 (proj2 (heater_cooler_exclusive V2.globals "cooling" 150 170
                                   Qh Qc To lh lc E))) eq_refl).
  - vm_compute in E. discriminate E.
Defined.

Lemma design_ok_spec (g : Globals) :
  design_ok g = true ->
  Forall (fun k => has_positive (U_values (design g)) k = true) exchanger_keys /\
  Forall (fun k => has_positive (heat_exchange_areas (design g)) k = true)
         exchanger_keys /\
  0 <= heater_max_duty (design g) /\
  0 <= cooler_max_duty (design g).
Proof.
  unfold design_ok. rewrite !andb_true_iff, !forallb_forall, !Qle_bool_iff.
  intros (((H1 & H2) & H3) & H4).
  rewrite !Forall_forall. setoid_rewrite list_elem_of_In. auto.
Qed.






(** * Further properties of the state machine *)

Lemma status_le_refl (s : State) : state_inv s -> status_le (status s) (status s).
Proof.
  intros [[-> _] | [[-> | ->] _]].
  - apply (status_le_rank _ _ 0 0); [reflexivity | reflexivity | lia].
  - apply (status_le_rank _ _ 1 1); [reflexivity | reflexivity | lia].
  - apply (status_le_rank _ _ 2 2); [reflexivity | reflexivity | lia].
Qed.

Lemma status_le_trans (a b c : string) :
  status_le a b -> status_le b c -> status_le a c.
Proof.
  intros (i & j & Hi & Hj & Hij) (j' & k & Hj' & Hk & Hjk).
  rewrite Hj in Hj'. injection Hj' as <-. exists i, k. split; [exact Hi|].
  split; [exact Hk | lia].
Qed.

Lemma legal_step_rst (g : Globals) (t : Z) (s s' : State) (t0 : Z) :
  state_inv s -> legal_step g t s s' ->
  reaction_start_time s = Some t0 -> reaction_start_time s' = Some t0.
Proof.
  intros Hinv (_ & _ & _ & _ & Hkeep & _) Hrst.
  rewrite Hkeep; [exact Hrst|]. intros [Hh _].
  destruct Hinv as [[_ Hn] | [[Hs | Hs] _]]; congruence.
Qed.

(** From the state before a run to any state of its trace. *)
Lemma steps_legal_from_start (g : Globals) (ts : list Z) :
  forall (s : State) (trace : list State) (j : nat) (sj : State),
    state_inv s ->
    steps_legal g ts s trace ->
    trace !! j = Some sj ->
    state_inv sj /\
    status_le (status s) (status sj) /\
    (forall t0, reaction_start_time s = Some t0 -> reaction_start_time sj = Some t0).
Proof.
  induction ts as [|t ts IH]; intros s trace j sj Hinv Hsteps Hj;
    destruct trace as [|s' trace]; simpl in Hsteps; try contradiction.
  - discriminate Hj.
  - destruct Hsteps as [Hstep Hrest].
    assert (Hinv' : state_inv s') by (destruct Hstep as (_ & _ & _ & _ & _ & H); exact H).
    destruct j as [|j]; simpl in Hj.
    + injection Hj as <-. split; [exact Hinv'|]. split.
      * destruct Hstep as (H & _). exact H.
      * intros t0. apply (legal_step_rst g t s s' t0 Hinv Hstep).
    + destruct (IH s' trace j sj Hinv' Hrest Hj) as (Hinvj & Hle & Hrst).
      split; [exact Hinvj|]. split.
      * apply (status_le_trans _ (status s')); [|exact Hle].
        destruct Hstep as (H & _). exact H.
      * intros t0 Ht0. apply Hrst. apply (legal_step_rst g t s s' t0 Hinv Hstep Ht0).
Qed.

Lemma steps_legal_between (g : Globals) (ts : list Z) :
  forall (s : State) (trace : list State) (i j : nat) (si sj : State),
    state_inv s ->
    steps_legal g ts s trace ->
    (i <= j)%nat ->
    trace !! i = Some si -> trace !! j = Some sj ->
    status_le (status si) (status sj) /\
    (forall t0, reaction_start_time si = Some t0 -> reaction_start_time sj = Some t0).
Proof.
  induction ts as [|t ts IH]; intros s trace i j si sj Hinv Hsteps Hij Hi Hj;
    destruct trace as [|s' trace]; simpl in Hsteps; try contradiction.
  - discriminate Hi.
  - destruct Hsteps as [Hstep Hrest].
    assert (Hinv' : state_inv s') by (destruct Hstep as (_ & _ & _ & _ & _ & H); exact H).
    destruct i as [|i]; simpl in Hi.
    + injection Hi as <-. destruct j as [|j]; simpl in Hj.
      * injection Hj as <-. split; [apply status_le_refl; exact Hinv' | auto].
      * destruct (steps_legal_from_start g ts s' trace j sj Hinv' Hrest Hj)
          as (_ & Hle & Hrst). auto.
    + destruct j as [|j]; [lia|]. simpl in Hj.
      apply (IH s' trace i j si sj Hinv' Hrest); [lia | exact Hi | exact Hj].
Qed.

(** X10.  Along a whole run that starts in heating, the status of an
    earlier iteration never ranks above the status of a later one (so a
    run that has reached cooling stays in cooling, and one that has left
    heating never heats again), and [reaction_start_time], once set, keeps
    its value to the end of the run. *)
Theorem run_statuses_sorted
    (g : Globals) (ts : list Z) (st : State)
    (results : gmap string (list value)) (trace : list State)
    (i j : nat) (si sj : State) :
  status st = "heating" ->
  reaction_start_time st = None ->
  run_states g ts st results = Ok trace ->
  (i <= j)%nat ->
  trace !! i = Some si -> trace !! j = Some sj ->
  status_le (status si) (status sj) /\
  (status si = "cooling" -> status sj = "cooling") /\
  (status sj = "heating" -> status si = "heating") /\
  (forall t0, reaction_start_time si = Some t0 -> reaction_start_time sj = Some t0).
Proof.
  intros Hs Hr Hrun Hij Hi Hj.
  assert (Hinv : state_inv st) by (left; auto).
  pose proof (run_states_legal g ts st results trace Hinv Hrun) as Hsteps.
  destruct (steps_legal_between g ts st trace i j si sj Hinv Hsteps Hij Hi Hj)
    as [Hle Hrst].
  split; [exact Hle|]. split; [|split; [|exact Hrst]].
  - intros Hc. destruct Hle as (a & b & Ha & Hb & Hab). rewrite Hc in Ha.
    injection Ha as <-. unfold status_rank in Hb.
    destruct (String.eqb_spec (status sj) "heating"); [injection Hb as <-; lia|].
    destruct (String.eqb_spec (status sj) "reaction"); [injection Hb as <-; lia|].
    destruct (String.eqb_spec (status sj) "cooling"); [assumption | discriminate].
  - intros Hh. destruct Hle as (a & b & Ha & Hb & Hab). rewrite Hh in Hb.
    injection Hb as <-. unfold status_rank in Ha.
    destruct (String.eqb_spec (status si) "heating"); [assumption|].
    destruct (String.eqb_spec (status si) "reaction"); [injection Ha as <-; lia|].
    destruct (String.eqb_spec (status si) "cooling");
      [injection Ha as <-; lia | discriminate].
Qed.

Lemma run_statuses_sorted_witness :
  exists trace,
    run_states demo [0; 1; 2; 3]%Z (Build_State 20 20 30 "heating" None) initial_results
    = Ok trace /\
    map status trace = ["reaction"; "reaction"; "cooling"; "cooling"] /\
    map reaction_start_time trace = [Some 0; Some 0; Some 0; Some 0]%Z /\
    forall si sj, trace !! 1%nat = Some si -> trace !! 3%nat = Some sj ->
      status_le (status si) (status sj).
Proof.
  destruct (run_states demo [0; 1; 2; 3]%Z (Build_State 20 20 30 "heating" None)
              initial_results) as [trace|e] eqn:E.
  - exists trace. split; [reflexivity|].
    pose proof E as E'. vm_compute in E'. injection E' as E'.
    split; [rewrite <- E'; reflexivity|]. split; [rewrite <- E'; reflexivity|].
    intros si sj Hi Hj.
    exact (proj1 (run_statuses_sorted demo [0; 1; 2; 3]%Z
                    (Build_State 20 20 30 "heating" None) initial_results trace
                    1 3 si sj eq_refl eq_refl E (le_S _ _ (le_S _ _ (le_n 1))) Hi Hj)).
  - vm_compute in E. discriminate E.
Defined.

(** X11.  The transitions fire as soon as they are due: an iteration
    leaves heating exactly when it finds the reactor at or above the
    configured maximum, leaves reaction exactly when the hold duration has
    elapsed, never ends in reaction with the hold duration elapsed, and
    goes from heating straight to cooling when the hold duration is not
    positive. *)
Theorem status_transitions_prompt
    (g : Globals) (t : Z) (st st' : State)
    (results results' : gmap string (list value)) :
  state_inv st ->
  loop_body g t st results = Ok (st', results') ->
  (status st = "heating" ->
   (status st' = "heating" <-> T_reactor st < reactor_max_temp (design g))) /\
  (status st' = "reaction" ->
   exists t0, reaction_start_time st' = Some t0 /\
              (t - t0 < reaction_time (design g))%Z) /\
  (status st = "reaction" -> forall t0, reaction_start_time st = Some t0 ->
   (status st' = "cooling" <-> (reaction_time (design g) <= t - t0)%Z)) /\
  (status st = "heating" -> reactor_max_temp (design g) <= T_reactor st ->
   (reaction_time (design g) <= 0)%Z -> status st' = "cooling").
Proof.
  intros Hinv Hbody. apply loop_body_status in Hbody.
  apply update_status_inv in Hbody.
  destruct Hbody as [(Hs & Hle & Hrst & Hs') | [(Hs & Hlt & Hs' & Hrst)
                   | [(Hs & Hrst & t0 & Ht0 & Hs') | (Hn1 & Hn2 & Hs' & Hrst)]]].
  - split; [|split; [|split]].
    + intros _. split; [|lra]. destruct Hs' as [[E _] | [E _]]; congruence.
    + intros Hr. exists t. split; [exact Hrst|].
      destruct Hs' as [[_ H] | [E _]]; [exact H | congruence].
    + congruence.
    + intros _ _ Hrt. destruct Hs' as [[_ H] | [E _]]; [lia | exact E].
  - split; [|split; [|split]].
    + intros _. split; [intros _; exact Hlt | intros _; exact Hs'].
    + congruence.
    + congruence.
    + intros _ Hle. lra.
  - split; [|split; [|split]].
    + congruence.
    + intros Hr. exists t0. split; [congruence|].
      destruct Hs' as [[_ H] | [E _]]; [exact H | congruence].
    + intros _ t1 Ht1. assert (t1 = t0) by congruence. subst t1.
      destruct Hs' as [[E H] | [E H]]; split; intros; try congruence; lia.
    + congruence.
  - split; [|split; [|split]]; congruence.
Qed.

Lemma status_transitions_prompt_witness :
  exists st' results',
    loop_body demo 0 (Build_State 20 20 30 "heating" None) initial_results
    = Ok (st', results') /\
    status st' <> "heating".
Proof.
  assert (Hinv : state_inv (Build_State 20 20 30 "heating" None))
    by (left; split; reflexivity).
  destruct (loop_body_total demo 0 (Build_State 20 20 30 "heating" None)
              initial_results 0 eq_refl Hinv initial_results_cols)
    as [[st' results'] E].
  exists st', results'. split; [exact E|].
  destruct (status_transitions_prompt demo 0 (Build_State 20 20 30 "heating" None)
              st' initial_results results' Hinv E) as (Hheat & _).
  intros Hh. apply (Hheat eq_refl) in Hh. vm_compute in Hh. discriminate Hh.
Defined.

(** * The results table, row by row *)

Lemma loop_body_iteration (g : Globals) (t : Z) (st st' : State)
    (results results' : gmap string (list value)) :
  loop_body g t st results = Ok (st', results') ->
  exists it,
    iteration_of g t st it /\
    st' = iteration_state it /\
    log (iteration_row t it) results = Ok results'.
Proof.
  unfold loop_body. destruct st as [To Tj Tr s rst]. intros H.
  repeat (apply bind_Ok in H as (? & ? & H);
          repeat match goal with x : (_ * _)%type |- _ => destruct x end).
  injection H as <- <-.
  repeat match goal with
    | H1 : getitem ?d ?k = Ok ?a, H2 : getitem ?d ?k = Ok ?b |- _ =>
        rewrite H1 in H2; injection H2 as <-
    end.
  eexists (Build_Iteration _ _ _ _ _ _ _ _ _ _ _ _ _ _ _ _ _ _ _ _ _ _ _).
  split; [|split].
  3: eassumption.
  2: reflexivity.
  unfold iteration_of.
  repeat (split; [eassumption|]).
  split; [|repeat (split; [eassumption|]); eassumption].
  do 3 eexists. repeat (split; [eassumption|]). eassumption.
Qed.

Lemma row_value_elem (row : list (string * value)) (k : string) (v : value) :
  NoDup (map fst row) -> (k, v) ∈ row -> row_value row k = Some v.
Proof.
  induction row as [|[k0 v0] row IH]; intros Hnd Hin; simpl in *.
  - inversion Hin.
  - apply NoDup_cons in Hnd as [Hk0 Hnd].
    apply elem_of_cons in Hin as [[= -> ->] | Hin].
    + rewrite String.eqb_refl. reflexivity.
    + destruct (String.eqb_spec k0 k) as [-> | Hne]; [|apply IH; assumption].
      exfalso. apply Hk0. apply list_elem_of_In, in_map_iff.
      exists (k, v). split; [reflexivity | apply list_elem_of_In; exact Hin].
Qed.

Lemma row_value_absent (row : list (string * value)) (k : string) :
  k ∉ map fst row -> row_value row k = None.
Proof.
  induction row as [|[k0 v0] row IH]; intros Hk; simpl in *; [reflexivity|].
  apply not_elem_of_cons in Hk as [Hne Hk].
  destruct (String.eqb_spec k0 k) as [-> | _]; [contradiction | apply IH; exact Hk].
Qed.

Lemma iteration_row_columns (t : Z) (it : Iteration) :
  map fst (iteration_row t it) = result_columns.
Proof. reflexivity. Qed.

Lemma column_of_cons (row : list (string * value))
    (rows : list (list (string * value))) (k : string) (v : value) :
  row_value row k = Some v -> column_of (row :: rows) k = v :: column_of rows k.
Proof. intros H. unfold column_of. simpl. rewrite H. reflexivity. Qed.

(** A run appends to every column the entries of its rows, in order. *)
Lemma run_loop_iterations (g : Globals) (ts : list Z) :
  forall (st : State) (results : gmap string (list value))
         (st' : State) (results' : gmap string (list value)) (n : nat),
    cols_inv result_columns n results ->
    run_loop g ts st results = Ok (st', results') ->
    exists its,
      iterations_of g ts st its /\
      (forall k col0, results !! k = Some col0 ->
         results' !! k = Some (col0 ++ column_of (rows_of ts its) k)%list) /\
      (forall k, results !! k = None -> results' !! k = None).
Proof.
  induction ts as [|t ts IH]; intros st results st' results' n Hcols H; simpl in H.
  - injection H as <- <-. exists []. split; [exact I|]. split; [|auto].
    intros k col0 Hk. unfold rows_of, column_of. simpl. rewrite app_nil_r. exact Hk.
  - apply bind_Ok in H as ([st1 results1] & Hbody & H).
    apply loop_body_iteration in Hbody as (it & Hit & -> & Hlog).
    assert (Hnd : NoDup (map fst (iteration_row t it)))
      by (rewrite iteration_row_columns; apply result_columns_NoDup).
    assert (Hcols1 : cols_inv result_columns (S n) results1).
    { rewrite <- (iteration_row_columns t it) in *.
      apply (log_cols _ n results); assumption. }
    destruct (IH _ _ _ _ _ Hcols1 H) as (its & Hits & Hsome & Hnone).
    exists (it :: its). split; [split; assumption|]. split.
    + intros k col0 Hk.
      destruct (log_lookup _ _ _ Hnd Hlog k) as [_ Hin].
      destruct (decide (k ∈ result_columns)) as [Hkc | Hkc].
      * destruct Hin as (col & v & Hv & Hcol & Hres); [exact Hkc|].
        assert (col = col0) by congruence. subst col.
        rewrite (Hsome k _ Hres). f_equal. rewrite <- app_assoc. f_equal.
        change (rows_of (t :: ts) (it :: its))
          with (iteration_row t it :: rows_of ts its).
        symmetry. apply column_of_cons. exact (row_value_elem _ _ _ Hnd Hv).
      * rewrite (proj2 (Hcols k) Hkc) in Hk. discriminate Hk.
    + intros k Hk. apply Hnone.
      destruct (log_lookup _ _ _ Hnd Hlog k) as [Hout Hin].
      destruct (decide (k ∈ result_columns)) as [Hkc | Hkc].
      * destruct (Hin Hkc) as (col & v & _ & Hcol & _). congruence.
      * rewrite (Hout Hkc). exact Hk.
Qed.

Lemma iterations_of_length (g : Globals) (ts : list Z) :
  forall (st : State) (its : list Iteration),
    iterations_of g ts st its -> length its = length ts.
Proof.
  induction ts as [|t ts IH]; intros st [|it its] H; simpl in *;
    try contradiction; [reflexivity|].
  destruct H as [_ H]. f_equal. exact (IH _ _ H).
Qed.

Lemma iteration_of_state_inv (g : Globals) (t : Z) (st : State) (it : Iteration) :
  state_inv st -> iteration_of g t st it -> state_inv (iteration_state it).
Proof.
  intros Hinv (Hus & _).
  assert (H : legal_step g t st (iteration_state it))
    by (apply update_status_legal; assumption).
  destruct H as (_ & _ & _ & _ & _ & H). exact H.
Qed.

(** Each iteration of a run, with the state it started from. *)
Lemma iterations_of_lookup (g : Globals) (ts : list Z) :
  forall (st : State) (its : list Iteration) (i : nat) (it : Iteration),
    state_inv st ->
    iterations_of g ts st its ->
    its !! i = Some it ->
    exists t prev, ts !! i = Some t /\ state_inv prev /\ iteration_of g t prev it.
Proof.
  induction ts as [|t ts IH]; intros st [|it0 its] i it Hinv H Hi; simpl in *;
    try contradiction; [discriminate Hi|].
  destruct H as [Hit H]. destruct i as [|i]; simpl in Hi.
  - injection Hi as <-. exists t, st. auto.
  - destruct (IH _ _ _ _ (iteration_of_state_inv g t st it0 Hinv Hit) H Hi)
      as (t' & prev & Ht' & Hprev & Hit').
    exists t', prev. auto.
Qed.

Lemma column_of_lookup (rows : list (list (string * value))) (k : string) :
  Forall (fun row => is_Some (row_value row k)) rows ->
  forall i, column_of rows k !! i = rows !! i ≫= fun row => row_value row k.
Proof.
  unfold column_of. induction rows as [|row rows IH]; intros Hall i; [reflexivity|].
  apply Forall_cons in Hall as [[v Hv] Hall]. simpl. rewrite Hv.
  destruct i as [|i]; simpl; [exact (eq_sym Hv) | apply IH; exact Hall].
Qed.

(** The table returned by a run, against its iterations. *)
Lemma simulate_table (g : Globals) (st : State)
    (results : gmap string (list value)) :
  simulate g = Ok (st, results) ->
  exists ts its,
    py_range 0 (end_time g) (dt g) = Ok ts /\
    length its = length ts /\
    iterations_of g ts (initial_state g) its /\
    (forall k, k ∉ result_columns -> results !! k = None) /\
    (forall k, k ∈ result_columns ->
       exists col, results !! k = Some col /\ length col = length ts) /\
    (forall k i, cell results k i
       = zip_with iteration_row ts its !! i ≫= fun row => row_value row k).
Proof.
  unfold simulate. intros H. apply bind_Ok in H as (ts & Hrange & Hrun).
  destruct (run_loop_iterations g ts _ _ _ _ 0 initial_results_cols Hrun)
    as (its & Hits & Hsome & Hnone).
  pose proof (iterations_of_length g ts _ _ Hits) as Hlen.
  exists ts, its. split; [exact Hrange|]. split; [exact Hlen|]. split; [exact Hits|].
  assert (Hrows : forall k, k ∈ result_columns ->
            Forall (fun row => is_Some (row_value row k)) (rows_of ts its)).
  { intros k Hk. apply Forall_forall. intros row Hrow. unfold rows_of in Hrow.
    apply list_elem_of_lookup in Hrow as [i Hi].
    apply lookup_zip_with_Some in Hi as (t & it & -> & _ & _).
    assert (Hin : k ∈ map fst (iteration_row t it))
      by (rewrite iteration_row_columns; exact Hk).
    apply list_elem_of_In, in_map_iff in Hin as ([k' v] & Hk' & Hin).
    simpl in Hk'. subst k'. exists v. apply row_value_elem.
    - rewrite iteration_row_columns. apply result_columns_NoDup.
    - apply list_elem_of_In. exact Hin. }
  assert (Hcol : forall k, k ∈ result_columns ->
            results !! k = Some (column_of (rows_of ts its) k)).
  { intros k Hk. destruct (proj1 (initial_results_cols k) Hk) as (col0 & Hcol0 & Hl).
    destruct col0; [|discriminate Hl]. exact (Hsome k [] Hcol0). }
  assert (Hout : forall k, k ∉ result_columns -> results !! k = None).
  { intros k Hk. apply Hnone. exact (proj2 (initial_results_cols k) Hk). }
  split; [exact Hout|]. split.
  - intros k Hk. exists (column_of (rows_of ts its) k). split; [exact (Hcol k Hk)|].
    assert (Hl : forall rows, Forall (fun row => is_Some (row_value row k)) rows ->
                   length (column_of rows k) = length rows).
    { unfold column_of. induction rows as [|row rows IHr]; intros Hall; [reflexivity|].
      apply Forall_cons in Hall as [[v Hv] Hall]. simpl. rewrite Hv. simpl.
      f_equal. exact (IHr Hall). }
    rewrite (Hl _ (Hrows k Hk)). unfold rows_of. rewrite length_zip_with. lia.
  - intros k i. unfold cell.
    destruct (decide (k ∈ result_columns)) as [Hk | Hk].
    + rewrite (Hcol k Hk). simpl. apply (column_of_lookup _ _ (Hrows k Hk)).
    + rewrite (Hout k Hk).
      destruct (zip_with iteration_row ts its !! i) as [row|] eqn:Hrow; [|reflexivity].
      change (None = row_value row k).
      apply lookup_zip_with_Some in Hrow as (t & it & -> & _ & _).
      symmetry. apply row_value_absent. rewrite iteration_row_columns. exact Hk.
Qed.

(** X12.  The returned table is the transpose of the run: its columns
    are exactly the twenty names of [result_columns], and row [i] of every
    column is the entry that iteration [i] of the loop logged for it. *)
Theorem simulate_results_transposed (g : Globals) (st : State)
    (results : gmap string (list value)) :
  simulate g = Ok (st, results) ->
  exists ts its,
    py_range 0 (end_time g) (dt g) = Ok ts /\
    length its = length ts /\
    iterations_of g ts (initial_state g) its /\
    (forall k, k ∉ result_columns -> results !! k = None) /\
    (forall k, k ∈ result_columns ->
       exists col, results !! k = Some col /\ length col = length ts) /\
    (forall k i, cell results k i
       = zip_with iteration_row ts its !! i ≫= fun row => row_value row k).
Proof. apply simulate_table. Qed.

(** With a valid configuration the run returns. *)
Lemma simulate_total (g : Globals) :
  config_ok g = true -> exists st results, simulate g = Ok (st, results).
Proof.
  intros Hok. pose proof (config_ok_spec g Hok) as (Hdt & _).
  unfold simulate, py_range.
  destruct (Z.eqb_spec (dt g) 0) as [E | _]; [lia|]. simpl.
  assert (Hinv0 : state_inv (initial_state g)) by (left; auto).
  destruct (run_loop_total g
              (map (fun i : nat => (0 + Z.of_nat i * dt g)%Z)
                   (seq 0 (range_length 0 (end_time g) (dt g))))
              Hok (initial_state g) initial_results 0 []
              Hinv0 initial_results_cols) as (st & results & Hrun & _).
  { vm_compute. reflexivity. }
  exists st, results. exact Hrun.
Qed.

Lemma simulate_results_transposed_witness :
  exists st results,
    simulate V2.globals = Ok (st, results) /\
    (forall k, k ∉ result_columns -> results !! k = None) /\
    forall k, k ∈ result_columns ->
      exists col, results !! k = Some col /\ length col = 360%nat.
Proof.
  destruct (simulate_total V2.globals config_ok_V2) as (st & results & Hsim).
  exists st, results. split; [exact Hsim|].
  destruct (simulate_results_transposed V2.globals st results Hsim)
    as (ts & its & Hrange & _ & _ & Hout & Hcols & _).
  split; [exact Hout|]. intros k Hk.
  destruct (Hcols k Hk) as (col & Hcol & Hlen). exists col. split; [exact Hcol|].
  rewrite Hlen. vm_compute in Hrange. injection Hrange as <-. reflexivity.
Defined.

(** Row [i] of the returned table is either the row of an iteration that
    started from a state satisfying [state_inv], or empty in every
    column. *)
Lemma simulate_row (g : Globals) (st : State) (results : gmap string (list value))
    (i : nat) :
  simulate g = Ok (st, results) ->
  (exists t it prev,
     state_inv prev /\ iteration_of g t prev it /\
     forall k, cell results k i = row_value (iteration_row t it) k)
  \/ (forall k, cell results k i = None).
Proof.
  intros Hsim.
  destruct (simulate_table g st results Hsim)
    as (ts & its & _ & _ & Hits & _ & _ & Hcell).
  destruct (zip_with iteration_row ts its !! i) as [row|] eqn:Hrow.
  - left. apply lookup_zip_with_Some in Hrow as (t & it & -> & Ht & Hit).
    assert (Hinv0 : state_inv (initial_state g)) by (left; auto).
    destruct (iterations_of_lookup g ts _ its i it Hinv0 Hits Hit)
      as (t' & prev & Ht' & Hprev & Hiter).
    assert (t' = t) by congruence. subst t'.
    exists t, it, prev. split; [exact Hprev|]. split; [exact Hiter|].
    intros k. rewrite Hcell.
    assert (Hz : zip_with iteration_row ts its !! i = Some (iteration_row t it)).
    { apply lookup_zip_with_Some. exists t, it. auto. }
    rewrite Hz. reflexivity.
  - right. intros k. rewrite Hcell, Hrow. reflexivity.
Qed.

(** X13.  In every row the logged total loss is the sum of the four
    insulation losses of that row, added in the order pipe to heater,
    jacket, reactor, pipe to jacket. *)
Theorem results_total_loss_is_sum (g : Globals) (st : State)
    (results : gmap string (list value)) (i : nat) (a b c d : float) :
  simulate g = Ok (st, results) ->
  cell results "Q_pipe_to_heater" i = Some (Num a) ->
  cell results "Q_jacket_loss" i = Some (Num b) ->
  cell results "Q_reactor_loss" i = Some (Num c) ->
  cell results "Q_pipe_to_jacket" i = Some (Num d) ->
  cell results "Q_total_loss" i = Some (Num (a + b + c + d)).
Proof.
  intros Hsim Ha Hb Hc Hd.
  destruct (simulate_row g st results i Hsim)
    as [(t & it & prev & _ & _ & Hcell) | Hnone].
  - rewrite Hcell in *. simpl in *.
    injection Ha as <-. injection Hb as <-. injection Hc as <-. injection Hd as <-.
    reflexivity.
  - rewrite Hnone in Ha. discriminate Ha.
Qed.

Lemma results_total_loss_is_sum_witness :
  exists st results,
    simulate demo = Ok (st, results) /\
    cell results "Q_pipe_to_heater" 0 = Some (Num 0) /\
    cell results "Q_jacket_loss" 0 = Some (Num 0) /\
    cell results "Q_reactor_loss" 0 = Some (Num 0) /\
    cell results "Q_pipe_to_jacket" 0 = Some (Num 14) /\
    cell results "Q_total_loss" 0 = Some (Num (0 + 0 + 0 + 14)).
Proof.
  destruct (simulate demo) as [[st results]|e] eqn:E.
  - exists st, results. split; [reflexivity|].
    assert (Ha : cell results "Q_pipe_to_heater" 0 = Some (Num 0))
      by (change (cell_of_run (Ok (st, results)) "Q_pipe_to_heater" 0 = Some (Num 0));
          rewrite <- E; vm_compute; reflexivity).
    assert (Hb : cell results "Q_jacket_loss" 0 = Some (Num 0))
      by (change (cell_of_run (Ok (st, results)) "Q_jacket_loss" 0 = Some (Num 0));
          rewrite <- E; vm_compute; reflexivity).
    assert (Hc : cell results "Q_reactor_loss" 0 = Some (Num 0))
      by (change (cell_of_run (Ok (st, results)) "Q_reactor_loss" 0 = Some (Num 0));
          rewrite <- E; vm_compute; reflexivity).
    assert (Hd : cell results "Q_pipe_to_jacket" 0 = Some (Num 14))
      by (change (cell_of_run (Ok (st, results)) "Q_pipe_to_jacket" 0 = Some (Num 14));
          rewrite <- E; vm_compute; reflexivity).
    split; [exact Ha|]. split; [exact Hb|]. split; [exact Hc|]. split; [exact Hd|].
    exact (results_total_loss_is_sum demo st results 0 0 0 0 14 E Ha Hb Hc Hd).
  - apply (f_equal (fun r => cell_of_run r "time" 0)) in E.
    vm_compute in E. discriminate E.
Defined.

(** X14.  In every row of the returned table the heater or the cooler is
    off: its duty is 0 and its limiting reason is "no transfer". *)
Theorem results_heater_cooler_exclusive (g : Globals) (st : State)
    (results : gmap string (list value)) (i : nat) :
  simulate g = Ok (st, results) ->
  is_Some (cell results "time" i) ->
  (cell results "Q_heater" i = Some (Num 0) /\
   cell results "limit_heater" i = Some (Str "no transfer")) \/
  (cell results "Q_cooler" i = Some (Num 0) /\
   cell results "limit_cooler" i = Some (Str "no transfer")).
Proof.
  intros Hsim [v Hv].
  destruct (simulate_row g st results i Hsim)
    as [(t & it & prev & _ & Hiter & Hcell) | Hnone];
    [|rewrite Hnone in Hv; discriminate Hv].
  rewrite !Hcell. simpl.
  destruct Hiter as (_ & Hhc & _). apply heater_cooler_inv in Hhc.
  destruct Hhc as [(_ & -> & -> & _) | [(_ & -> & -> & _)
                 | (_ & _ & _ & -> & _ & _ & -> & _)]]; auto.
Qed.

Lemma results_heater_cooler_exclusive_witness :
  exists st results,
    simulate demo = Ok (st, results) /\
    cell results "Q_heater" 0 = Some (Num 14) /\
    cell results "Q_cooler" 0 = Some (Num 0) /\
    cell results "limit_cooler" 0 = Some (Str "no transfer").
Proof.
  destruct (simulate demo) as [[st results]|e] eqn:E.
  - exists st, results. split; [reflexivity|].
    assert (Ht : is_Some (cell results "time" 0)).
    { change (is_Some (cell_of_run (Ok (st, results)) "time" 0)).
      rewrite <- E. vm_compute. eauto. }
    assert (Hh : cell results "Q_heater" 0 = Some (Num 14))
      by (change (cell_of_run (Ok (st, results)) "Q_heater" 0 = Some (Num 14));
          rewrite <- E; vm_compute; reflexivity).
    split; [exact Hh|].
    destruct (results_heater_cooler_exclusive demo st results 0 E Ht)
      as [[Hq _] | [Hq Hl]].
    + rewrite Hh in Hq. discriminate Hq.
    + split; [exact Hq | exact Hl].
  - apply (f_equal (fun r => cell_of_run r "time" 0)) in E.
    vm_compute in E. discriminate E.
Defined.

(** X15.  With positive coefficients, capacitances and timestep and
    non-negative device caps, every logged heater duty lies between 0 and
    the heater cap, every logged cooler duty between 0 and the cooler cap,
    and the logged oil-to-jacket and jacket-to-reactor duties are never
    negative. *)
Theorem results_duties_bounded (g : Globals) (st : State)
    (results : gmap string (list value)) (i : nat) (q : float) :
  config_ok g = true ->
  design_ok g = true ->
  simulate g = Ok (st, results) ->
  (cell results "Q_heater" i = Some (Num q) ->
   0 <= q <= heater_max_duty (design g)) /\
  (cell results "Q_cooler" i = Some (Num q) ->
   0 <= q <= cooler_max_duty (design g)) /\
  (cell results "Q_oil_jacket" i = Some (Num q) -> 0 <= q) /\
  (cell results "Q_jacket_reactor" i = Some (Num q) -> 0 <= q).
Proof.
  intros Hok Hdes Hsim.
  apply config_ok_spec in Hok as (Hdt & _ & _ & Hm & _ & _).
  apply design_ok_spec in Hdes as (HU & HA & Hhmd & Hcmd).
  unfold exchanger_keys in HU, HA.
  rewrite !Forall_cons in HU. rewrite !Forall_cons in HA. rewrite !Forall_cons in Hm.
  destruct HU as (HU1 & HU2 & HU3 & HU4 & _).
  destruct HA as (HA1 & HA2 & HA3 & HA4 & _).
  destruct Hm as (Hflow & Hcool & Hjacket & Hreactor & _).
  apply has_positive_Some in Hflow as (flow & Eflow & Hflow).
  apply has_positive_Some in Hcool as (cool & Ecool & Hcool).
  apply has_positive_Some in Hjacket as (jacket & Ejacket & Hjacket).
  apply has_positive_Some in Hreactor as (reactor & Ereactor & Hreactor).
  assert (Hno : forall cap : float, @None Q = Some cap -> 0 <= cap)
    by (intros cap [=]).
  destruct (simulate_row g st results i Hsim)
    as [(t & it & prev & _ & Hiter & Hcell) | Hnone].
  2: { rewrite !Hnone. split; [|split; [|split]]; discriminate. }
  rewrite !Hcell. simpl.
  destruct Hiter as (_ & Hhc & _ & (flow' & jacket' & reactor' & Ef & Ej & Er & Hoj & Hjr) & _).
  apply getitem_Ok in Ef, Ej, Er.
  rewrite Eflow in Ef. rewrite Ejacket in Ej. rewrite Ereactor in Er.
  injection Ef as <-. injection Ej as <-. injection Er as <-.
  destruct (calculate_heat_transfer_bounds g _ _ _ _ _ _ _ _ _ _
              Hdt HU3 HA3 Hflow Hjacket Hno Hoj) as (HQoj & _).
  destruct (calculate_heat_transfer_bounds g _ _ _ _ _ _ _ _ _ _
              Hdt HU4 HA4 Hjacket Hreactor Hno Hjr) as (HQjr & _).
  assert (Hduty : 0 <= it_Q_heater it <= heater_max_duty (design g) /\
                  0 <= it_Q_cooler it <= cooler_max_duty (design g)).
  { apply heater_cooler_inv in Hhc.
    destruct Hhc as [(_ & -> & _ & fl & ho & Efl & Hcall)
                   | [(_ & -> & _ & fl & co & ho & Efl & Eco & Hcall)
                   | (_ & _ & _ & -> & -> & _)]].
    - rewrite Eflow in Efl. injection Efl as <-.
      destruct (calculate_heat_transfer_bounds g _ _ _ _ _ _ _ _ _ _
                  Hdt HU1 HA1 Hflow Hflow
                  (fun cap (E : Some (heater_max_duty (design g)) = Some cap) =>
                     eq_ind _ (fun c => 0 <= c) Hhmd _ (Some_inj _ _ E))
                  Hcall) as (HQ & HQcap & _).
      pose proof (HQcap _ eq_refl). split; split; lra.
    - rewrite Eflow in Efl. injection Efl as <-.
      rewrite Ecool in Eco. injection Eco as <-.
      destruct (calculate_heat_transfer_bounds g _ _ _ _ _ _ _ _ _ _
                  Hdt HU2 HA2 Hflow Hcool
                  (fun cap (E : Some (cooler_max_duty (design g)) = Some cap) =>
                     eq_ind _ (fun c => 0 <= c) Hcmd _ (Some_inj _ _ E))
                  Hcall) as (HQ & HQcap & _).
      pose proof (HQcap _ eq_refl). split; split; lra.
    - split; split; lra. }
  destruct Hduty as [Hh Hc].
  split; [|split; [|split]]; intros [= <-]; assumption.
Qed.

Lemma results_duties_bounded_witness :
  exists st results,
    simulate demo = Ok (st, results) /\
    cell results "Q_heater" 0 = Some (Num 14) /\
    0 <= 14 <= heater_max_duty (design demo).
Proof.
  destruct (simulate demo) as [[st results]|e] eqn:E.
  - exists st, results. split; [reflexivity|].
    assert (Hh : cell results "Q_heater" 0 = Some (Num 14))
      by (change (cell_of_run (Ok (st, results)) "Q_heater" 0 = Some (Num 14));
          rewrite <- E; vm_compute; reflexivity).
    split; [exact Hh|].
    assert (Hok : config_ok demo = true) by (vm_compute; reflexivity).
    assert (Hdes : design_ok demo = true) by (vm_compute; reflexivity).
    exact (proj1 (results_duties_bounded demo st results 0 14 Hok Hdes E) Hh).
  - apply (f_equal (fun r => cell_of_run r "time" 0)) in E.
    vm_compute in E. discriminate E.
Defined.

Lemma no_transfer_tag : "no transfer" ∈ limit_tags.
Proof. unfold limit_tags. set_solver. Qed.

Lemma limiting_reason_tag (Q_area Q_flow_hot Q_flow_cold : float)
    (max_duty : option float) :
  (limiting Q_area Q_flow_hot Q_flow_cold max_duty).2 ∈ limit_tags.
Proof.
  unfold limiting, limit_tags.
  destruct (Qltb _ _); destruct (Qltb _ _); destruct max_duty as [cap|];
    try destruct (Qltb cap _); simpl; set_solver.
Qed.

Lemma calculate_heat_transfer_tag
    (g : Globals) (T_hot_in T_cold_in thermal_mass_hot thermal_mass_cold : float)
    (max_duty : option float) (Exchanger_name : string)
    (Q_lim T_hot_out T_cold_out : float) (reason : string) :
  calculate_heat_transfer g T_hot_in T_cold_in thermal_mass_hot thermal_mass_cold
    max_duty Exchanger_name = Ok (Q_lim, T_hot_out, T_cold_out, reason) ->
  reason ∈ limit_tags.
Proof.
  intros Hcall.
  apply calculate_heat_transfer_inv in Hcall as (U & A & _ & _ & [[_ Heq]|H]).
  - injection Heq as _ _ _ ->. exact no_transfer_tag.
  - destruct H as (_ & _ & _ & _ & Hlim & _).
    replace reason with
      (limiting (U * A * delta_T g T_hot_in T_cold_in)
         (thermal_mass_hot * delta_T g T_hot_in T_cold_in / dtQ g)
         (thermal_mass_cold * delta_T g T_hot_in T_cold_in / dtQ g) max_duty).2
      by (rewrite <- Hlim; reflexivity).
    apply limiting_reason_tag.
Qed.

(** X16.  The four limit columns of the returned table hold only the
    strings "area", "hot flow", "cold flow", "device" and "no transfer",
    and the oil-to-jacket and jacket-to-reactor columns never hold
    "device" (those exchanges are called without a cap). *)
Theorem results_limit_tags (g : Globals) (st : State)
    (results : gmap string (list value)) (i : nat) (k : string) (v : value) :
  simulate g = Ok (st, results) ->
  k ∈ ["limit_heater"; "limit_cooler"; "limit_oil_jacket"; "limit_jacket_reactor"] ->
  cell results k i = Some v ->
  exists reason, v = Str reason /\ reason ∈ limit_tags /\
    (k = "limit_oil_jacket" \/ k = "limit_jacket_reactor" -> reason <> "device").
Proof.
  intros Hsim Hk Hv.
  destruct (simulate_row g st results i Hsim)
    as [(t & it & prev & _ & Hiter & Hcell) | Hnone];
    [|rewrite Hnone in Hv; discriminate Hv].
  rewrite Hcell in Hv.
  destruct Hiter as (_ & Hhc & _ & (flow & jacket & reactor & _ & _ & _ & Hoj & Hjr) & _).
  assert (Hnodev : forall Th Tc mh mc name Ql ho co r,
            calculate_heat_transfer g Th Tc mh mc None name = Ok (Ql, ho, co, r) ->
            r <> "device").
  { intros Th Tc mh mc name Ql ho co r Hcall.
    apply calculate_heat_transfer_inv in Hcall as (U & A & _ & _ & [[_ Heq]|H]).
    - injection Heq as _ _ _ ->. discriminate.
    - destruct H as (_ & _ & _ & _ & Hlim & _). unfold limiting in Hlim.
      destruct (Qltb _ _) in Hlim; destruct (Qltb _ _) in Hlim;
        injection Hlim as _ ->; discriminate. }
  assert (Hhc' : it_limit_heater it ∈ limit_tags /\ it_limit_cooler it ∈ limit_tags).
  { apply heater_cooler_inv in Hhc.
    destruct Hhc as [(_ & _ & -> & fl & ho & _ & Hcall)
                   | [(_ & _ & -> & fl & co & ho & _ & _ & Hcall)
                   | (_ & _ & _ & _ & _ & _ & -> & ->)]].
    - split; [exact (calculate_heat_transfer_tag _ _ _ _ _ _ _ _ _ _ _ Hcall)|].
      exact no_transfer_tag.
    - split; [exact no_transfer_tag|].
      exact (calculate_heat_transfer_tag _ _ _ _ _ _ _ _ _ _ _ Hcall).
    - split; exact no_transfer_tag. }
  repeat (apply elem_of_cons in Hk as [-> | Hk]); [ | | | | inversion Hk];
    simpl in Hv; injection Hv as <-; eexists; (split; [reflexivity|]); split.
  - exact (proj1 Hhc').
  - intros [? | ?]; discriminate.
  - exact (proj2 Hhc').
  - intros [? | ?]; discriminate.
  - exact (calculate_heat_transfer_tag _ _ _ _ _ _ _ _ _ _ _ Hoj).
  - intros _. exact (Hnodev _ _ _ _ _ _ _ _ _ Hoj).
  - exact (calculate_heat_transfer_tag _ _ _ _ _ _ _ _ _ _ _ Hjr).
  - intros _. exact (Hnodev _ _ _ _ _ _ _ _ _ Hjr).
Qed.

Lemma results_limit_tags_witness :
  exists st results,
    simulate demo = Ok (st, results) /\
    cell results "limit_heater" 0 = Some (Str "area") /\
    "area" ∈ limit_tags.
Proof.
  destruct (simulate demo) as [[st results]|e] eqn:E.
  - exists st, results. split; [reflexivity|].
    assert (Hh : cell results "limit_heater" 0 = Some (Str "area"))
      by (change (cell_of_run (Ok (st, results)) "limit_heater" 0 = Some (Str "area"));
          rewrite <- E; vm_compute; reflexivity).
    split; [exact Hh|].
    destruct (results_limit_tags demo st results 0 "limit_heater" (Str "area") E)
      as (reason & [= <-] & Hin & _); [left | exact Hh | exact Hin].
  - apply (f_equal (fun r => cell_of_run r "time" 0)) in E.
    vm_compute in E. discriminate E.
Defined.

(** X17.  With positive coefficients, capacitances and timestep, in every
    row the oil leaves the jacket no warmer than it entered: the jacket
    never heats the oil. *)
Theorem results_oil_not_heated_by_jacket (g : Globals) (st : State)
    (results : gmap string (list value)) (i : nat) (T_in T_out : float) :
  config_ok g = true ->
  design_ok g = true ->
  simulate g = Ok (st, results) ->
  cell results "T_oil_after_pipe_to_jacket" i = Some (Num T_in) ->
  cell results "T_oil_after_jacket" i = Some (Num T_out) ->
  T_out <= T_in.
Proof.
  intros Hok Hdes Hsim Hin Hout.
  apply config_ok_spec in Hok as (Hdt & _ & _ & Hm & _ & _).
  apply design_ok_spec in Hdes as (HU & HA & _ & _).
  unfold exchanger_keys in HU, HA.
  rewrite !Forall_cons in HU. rewrite !Forall_cons in HA. rewrite !Forall_cons in Hm.
  destruct HU as (_ & _ & HU3 & _). destruct HA as (_ & _ & HA3 & _).
  destruct Hm as (Hflow & _ & Hjacket & _).
  apply has_positive_Some in Hflow as (flow & Eflow & Hflow).
  apply has_positive_Some in Hjacket as (jacket & Ejacket & Hjacket).
  destruct (simulate_row g st results i Hsim)
    as [(t & it & prev & _ & Hiter & Hcell) | Hnone];
    [|rewrite Hnone in Hin; discriminate Hin].
  rewrite Hcell in Hin, Hout. simpl in Hin, Hout.
  injection Hin as <-. injection Hout as <-.
  destruct Hiter as (_ & _ & _ & (flow' & jacket' & reactor' & Ef & Ej & _ & Hoj & _) & _).
  apply getitem_Ok in Ef, Ej. rewrite Eflow in Ef. rewrite Ejacket in Ej.
  injection Ef as <-. injection Ej as <-.
  destruct (calculate_heat_transfer_bounds g _ _ _ _ _ _ _ _ _ _
              Hdt HU3 HA3 Hflow Hjacket
              (fun cap (E : @None Q = Some cap) =>
                 match E in _ = o return match o with Some _ => 0 <= cap | None => True end
                 with eq_refl => I end)
              Hoj) as (_ & _ & Hle & _).
  exact Hle.
Qed.

Lemma results_oil_not_heated_by_jacket_witness :
  exists st results,
    simulate demo = Ok (st, results) /\
    cell results "T_oil_after_pipe_to_jacket" 0 = Some (Num 20) /\
    cell results "T_oil_after_jacket" 0 = Some (Num 20) /\
    20 <= 20.
Proof.
  destruct (simulate demo) as [[st results]|e] eqn:E.
  - exists st, results. split; [reflexivity|].
    assert (Ha : cell results "T_oil_after_pipe_to_jacket" 0 = Some (Num 20))
      by (change (cell_of_run (Ok (st, results)) "T_oil_after_pipe_to_jacket" 0
                  = Some (Num 20));
          rewrite <- E; vm_compute; reflexivity).
    assert (Hb : cell results "T_oil_after_jacket" 0 = Some (Num 20))
      by (change (cell_of_run (Ok (st, results)) "T_oil_after_jacket" 0
                  = Some (Num 20));
          rewrite <- E; vm_compute; reflexivity).
    split; [exact Ha|]. split; [exact Hb|].
    assert (Hok : config_ok demo = true) by (vm_compute; reflexivity).
    assert (Hdes : design_ok demo = true) by (vm_compute; reflexivity).
    exact (results_oil_not_heated_by_jacket demo st results 0 20 20 Hok Hdes E Ha Hb).
  - apply (f_equal (fun r => cell_of_run r "time" 0)) in E.
    vm_compute in E. discriminate E.
Defined.

(** * Edge cases of the loop range *)

(** X18.  A zero timestep makes the run raise [ValueError] before any
    iteration; a non-positive [end_time] with a positive timestep, or a
    non-negative [end_time] with a negative timestep, runs no iteration
    at all and returns the initial state with twenty empty columns,
    whatever the rest of the configuration holds. *)
Theorem simulate_degenerate_range (g : Globals) :
  ((dt g = 0)%Z -> simulate g = Raise ValueError) /\
  ((0 < dt g)%Z -> (end_time g <= 0)%Z ->
   simulate g = Ok (initial_state g, initial_results)) /\
  ((dt g < 0)%Z -> (0 <= end_time g)%Z ->
   simulate g = Ok (initial_state g, initial_results)).
Proof.
  unfold simulate, py_range, range_length. split; [|split].
  - intros ->. reflexivity.
  - intros Hdt Hend.
    destruct (Z.eqb_spec (dt g) 0) as [E | _]; [lia|].
    rewrite (proj2 (Z.ltb_lt 0 (dt g)) Hdt).
    rewrite (proj2 (Z.ltb_ge 0 (end_time g)) Hend). reflexivity.
  - intros Hdt Hend.
    destruct (Z.eqb_spec (dt g) 0) as [E | _]; [lia|].
    rewrite (proj2 (Z.ltb_ge 0 (dt g))) by lia.
    rewrite (proj2 (Z.ltb_ge (end_time g) 0) Hend). reflexivity.
Qed.

Lemma simulate_degenerate_range_witness :
  simulate (Build_Globals V2.cp V2.approach_temp V2.design V2.K_p 0 V2.end_time
                          V2.m_dot_oil V2.thermal_mass)
  = Raise ValueError.
Proof.
  apply (simulate_degenerate_range
           (Build_Globals V2.cp V2.approach_temp V2.design V2.K_p 0 V2.end_time
                          V2.m_dot_oil V2.thermal_mass)).
  reflexivity.
Defined.

Lemma range_length_ceil (stop step : Z) :
  (0 < step)%Z -> (0 <= stop)%Z ->
  range_length 0 stop step = Z.to_nat ((stop + step - 1) / step).
Proof.
  intros Hstep Hstop. unfold range_length.
  rewrite (proj2 (Z.ltb_lt 0 step) Hstep).
  destruct (Z.ltb_spec 0 stop) as [Hpos | Hzero].
  - f_equal. replace (stop + step - 1)%Z with ((stop - 1 - 0) + 1 * step)%Z by ring.
    rewrite Z.div_add by lia. ring.
  - assert (stop = 0)%Z by lia. subst stop. simpl.
    rewrite Z.div_small by lia. reflexivity.
Qed.

(** X19.  With a valid configuration and a non-negative [end_time], the
    run returns and every column has [ceil(end_time / dt)] entries,
    whether or not the timestep divides [end_time]; the logged times are
    the multiples of [dt] strictly below [end_time]. *)
Theorem simulate_record_count_ceil (g : Globals) :
  config_ok g = true ->
  (0 <= end_time g)%Z ->
  let n := Z.to_nat ((end_time g + dt g - 1) / dt g) in
  exists st results,
    simulate g = Ok (st, results) /\
    (forall k, k ∈ result_columns ->
       exists col, results !! k = Some col /\ length col = n) /\
    (forall i, cell results "time" i
       = if decide (i < n)%nat then Some (Num (inject_Z (0 + Z.of_nat i * dt g)))
         else None) /\
    (forall i, (i < n)%nat -> (0 + Z.of_nat i * dt g < end_time g)%Z) /\
    (end_time g <= 0 + Z.of_nat n * dt g)%Z.
Proof.
  intros Hok Hend n.
  pose proof (config_ok_spec g Hok) as (Hdt & _).
  destruct (simulate_total g Hok) as (st & results & Hsim).
  exists st, results. split; [exact Hsim|].
  destruct (simulate_table g st results Hsim)
    as (ts & its & Hrange & Hlen & _ & _ & Hcols & Hcell).
  assert (Hts : ts = map (fun i : nat => (0 + Z.of_nat i * dt g)%Z) (seq 0 n)).
  { unfold py_range in Hrange. destruct (Z.eqb_spec (dt g) 0) as [E | _]; [lia|].
    injection Hrange as <-. rewrite range_length_ceil by assumption. reflexivity. }
  assert (Hn : length ts = n) by (rewrite Hts, length_map, length_seq; reflexivity).
  assert (Hbounds : (Z.of_nat n = (end_time g + dt g - 1) / dt g)%Z).
  { unfold n. rewrite Z2Nat.id; [reflexivity|]. apply Z.div_pos; lia. }
  pose proof (Z.div_mod (end_time g + dt g - 1) (dt g) ltac:(lia)) as Hdm.
  pose proof (Z.mod_pos_bound (end_time g + dt g - 1) (dt g) Hdt) as Hmod.
  split; [|split; [|split]].
  - intros k Hk. destruct (Hcols k Hk) as (col & Hcol & Hl).
    exists col. split; [exact Hcol | congruence].
  - intros i. rewrite Hcell. destruct (decide (i < n)%nat) as [Hi | Hi].
    + assert (Ht : ts !! i = Some (0 + Z.of_nat i * dt g)%Z).
      { rewrite Hts. rewrite list_lookup_fmap, lookup_seq_lt by exact Hi. reflexivity. }
      destruct (lookup_lt_is_Some_2 its i) as [it Hit]; [lia|].
      assert (Hz : zip_with iteration_row ts its !! i
                   = Some (iteration_row (0 + Z.of_nat i * dt g) it)).
      { apply lookup_zip_with_Some. eexists _, _. eauto. }
      rewrite Hz. reflexivity.
    + assert (Hz : zip_with iteration_row ts its !! i = None).
      { apply lookup_ge_None. rewrite length_zip_with. lia. }
      rewrite Hz. reflexivity.
  - intros i Hi. nia.
  - nia.
Qed.

Lemma simulate_record_count_ceil_witness :
  exists st results,
    simulate (Build_Globals V2.cp V2.approach_temp V2.design V2.K_p 60 100
                            V2.m_dot_oil V2.thermal_mass)
    = Ok (st, results) /\
    forall k, k ∈ result_columns ->
      exists col, results !! k = Some col /\ length col = 2%nat.
Proof.
  destruct (simulate_record_count_ceil
              (Build_Globals V2.cp V2.approach_temp V2.design V2.K_p 60 100
                             V2.m_dot_oil V2.thermal_mass))
    as (st & results & Hsim & Hcols & _).
  - vm_compute. reflexivity.
  - vm_compute. discriminate.
  - exists st, results. split; [exact Hsim | exact Hcols].
Defined.
